(** * antchain: a signed-request client for a remote ledger service

    A shallow embedding of the Go package [antchain] (client and util
    sources) and the properties of its authenticated-call protocol:
    handshake, parameter assembly, the response envelope, and the
    token-ID helper.

    Conventions.
    - A Go [string] is a [string] (a sequence of bytes); [[]byte] is
      [list byte].
    - [X], Go's [map[string]interface{}], is a [gmap string any].
    - A Go function returning [(T, error)] returns [result T].
    - Code that reads the clock, draws randomness or talks to the network
      runs in the monad [M] over a [World]. *)

From Stdlib Require Import ZArith NArith Ascii String List DecimalString.
From Stdlib.Strings Require Import Byte.
From Stdlib Require Import Floats.SpecFloat.
From stdpp Require Import base strings gmap list.

Local Open Scope string_scope.
Set Warnings "-register-all".

(* ===================================================================== *)
(** * Errors and results *)
(* ===================================================================== *)

(** Go's [error] values, by origin.  [errorString] is what [errors.New]
    and [fmt.Errorf] (without [%w]) build; [Canceled] and
    [DeadlineExceeded] are the two sentinels of package [context];
    [Foreign] stands for an error produced by a library outside the
    package (crypto/rsa, encoding/json, net/http, io). *)
Inductive error : Type :=
| errorString (msg : string)
| Canceled
| DeadlineExceeded
| Foreign (pkg : string) (msg : string).

(** [err.Error()] *)
Definition Error (e : error) : string :=
  match e with
  | errorString msg => msg
  | Canceled => "context canceled"
  | DeadlineExceeded => "context deadline exceeded"
  | Foreign pkg msg => pkg +:+ ": " +:+ msg
  end.

Inductive result (A : Type) : Type :=
| Ok (a : A)
| Err (e : error).
Arguments Ok {A} a.
Arguments Err {A} e.

(** [strings.Contains(s, sub)], as a proposition. *)
Definition Contains (s sub : string) : Prop :=
  exists pre post : string, s = pre +:+ sub +:+ post.

(* ===================================================================== *)
(** * Bytes, hexadecimal and decimal text *)
(* ===================================================================== *)

Definition byteZ (c : ascii) : Z := Z.of_N (N_of_ascii c).

Definition ascii_of_byteval (n : N) : ascii := ascii_of_N n.

(** [hextable = "0123456789abcdef"] of encoding/hex. *)
Definition hextable : string := "0123456789abcdef".

Definition hexdigit (n : N) : ascii :=
  match String.get (N.to_nat n) hextable with
  | Some c => c
  | None => "0"%char
  end.

(** [hex.EncodeToString]: two characters per byte, high nibble first. *)
Definition hex_byte (b : byte) : string :=
  let v := Byte.to_N b in
  String (hexdigit (N.shiftr v 4)) (String (hexdigit (N.land v 15)) EmptyString).

Fixpoint hex_EncodeToString (src : list byte) : string :=
  match src with
  | [] => EmptyString
  | b :: rest => hex_byte b +:+ hex_EncodeToString rest
  end.

(** [strconv.FormatInt(i, 10)] *)
Definition FormatInt (i : Z) : string := NilZero.string_of_int (Z.to_int i).

(* ===================================================================== *)
(** * util.go: token identifiers *)
(* ===================================================================== *)

(** ** math/big: [Int.SetString] for an explicit base

    [digitVal] is the digit-value switch of [nat.scan]; for bases up to
    [maxBaseSmall = 36] upper and lower case letters have the same value.
    [MaxBase = 62]. *)
Definition MaxBase : Z := 62.
Definition maxBaseSmall : Z := 36.

Definition digitVal (b : Z) (ch : ascii) : Z :=
  let c := byteZ ch in
  (if (48 <=? c) && (c <=? 57) then c - 48
   else if (97 <=? c) && (c <=? 122) then c - 97 + 10
   else if (65 <=? c) && (c <=? 90) then
     (if b <=? maxBaseSmall then c - 65 + 10 else c - 65 + maxBaseSmall)
   else MaxBase + 1)%Z.

(** The digit loop of [nat.scan] with [base <> 0] and [fracOk = false]:
    no prefix, no ['_'] separators, no ['.'].  Returns the value read, the
    number of digits consumed and the unread rest of the input. *)
Fixpoint nat_scan (b : Z) (s : string) (acc : Z) (count : nat) : Z * nat * string :=
  match s with
  | EmptyString => (acc, count, EmptyString)
  | String ch rest =>
      let d1 := digitVal b ch in
      if (b <=? d1)%Z then (acc, count, s)
      else nat_scan b rest (acc * b + d1)%Z (S count)
  end.

(** [scanSign]: fails on empty input, consumes one leading ['+'] or ['-']. *)
Definition scanSign (s : string) : option (bool * string) :=
  match s with
  | EmptyString => None
  | String ch rest =>
      if Ascii.eqb ch "-" then Some (true, rest)
      else if Ascii.eqb ch "+" then Some (false, rest)
      else Some (false, s)
  end.

(** [Int.scan]: sign, then mantissa; [errNoDigits] when [count = 0]. *)
Definition Int_scan (s : string) (base : Z) : option (Z * string) :=
  match scanSign s with
  | None => None
  | Some (neg, s1) =>
      match nat_scan base s1 0 0 with
      | (_, O, _) => None
      | (v, S _, rest) => Some (if neg then (- v)%Z else v, rest)
      end
  end.

(** A [*big.Int]: [None] is the nil pointer. *)
Definition big_Int : Type := option Z.

(** [z.SetString(s, base)]: the whole input must be consumed; on failure
    the pointer returned is nil and the flag is false. *)
Definition SetString (s : string) (base : Z) : big_Int * bool :=
  match Int_scan s base with
  | Some (v, EmptyString) => (Some v, true)
  | _ => (None, false)
  end.

(** [type TokenID *big.Int] *)
Definition TokenID : Type := big_Int.

(** [func GetTokenID(token string) TokenID] *)
Definition GetTokenID (token : string) : TokenID :=
  let '(v, _) := SetString token 16 in
  v.

(** What a base-16 numeral is, independently of the scanner: an optional
    sign followed by one or more hexadecimal digits. *)
Definition is_hex_digit (c : ascii) : bool :=
  let n := byteZ c in
  ((48 <=? n) && (n <=? 57) || (97 <=? n) && (n <=? 102) || (65 <=? n) && (n <=? 70))%Z.

Definition strip_sign (s : string) : string :=
  match s with
  | String c rest => if Ascii.eqb c "-" || Ascii.eqb c "+" then rest else s
  | EmptyString => s
  end.

Definition valid_hex_numeral (s : string) : bool :=
  match strip_sign s with
  | EmptyString => false
  | String c rest => forallb is_hex_digit (c :: list_ascii_of_string rest)
  end.

(* ===================================================================== *)
(** * util.go: constants, parameter maps, signing *)
(* ===================================================================== *)

Definition CHAIN_CALL_FOR_BIZ : string := "/api/contract/chainCallForBiz".
Definition CHAIN_CALL : string := "/api/contract/chainCall".
Definition SHAKE_HAND : string := "/api/contract/shakeHand".

(** [interface{}]: a dynamically typed value.  The package itself only
    stores strings; callers may inject anything else. *)
Inductive any : Type :=
| VString (s : string)
| VInt (n : Z)
| VOpaque (tag : N).

(** [type X map[string]interface{}] *)
Abbreviation X := (gmap string any).

(** [crypto.Hash] is an unsigned integer; [crypto.SHA256 = 5]. *)
Definition Hash : Type := N.
Definition SHA256 : Hash := 5%N.

(** [rsa.PrivateKey] *)
Record rsa_PrivateKey : Type := {
  rsa_N : Z;
  rsa_E : Z;
  rsa_D : Z;
  rsa_Primes : list Z
}.

(** [type PrivateKey struct { key *rsa.PrivateKey }] *)
Record PrivateKey : Type := { pk_key : rsa_PrivateKey }.

(* ===================================================================== *)
(** * The world outside the package *)
(* ===================================================================== *)

(** A [context.Context] in logical time: it never fires, or it is done
    from some instant on, and [ctx.Err()] then says why. *)
Inductive Context : Type :=
| Background
| DoneFrom (at_ : nat) (why : error).

(** Is the channel [ctx.Done()] closed at instant [now]? *)
Definition Done (ctx : Context) (now : nat) : bool :=
  match ctx with
  | Background => false
  | DoneFrom t _ => Nat.leb t now
  end.

(** [ctx.Err()] once [ctx.Done()] is closed. *)
Definition ctx_Err (ctx : Context) : error :=
  match ctx with
  | Background => Canceled
  | DoneFrom _ why => why
  end.

(** [*http.Request] as far as the package fills it in. *)
Record Request : Type := {
  Method : string;
  URL : string;
  ReqBody : list byte;
  Header : list (string * string);
  ReqCtx : Context
}.

(** [*http.Response]; [RespBody] is what [ioutil.ReadAll(resp.Body)]
    yields. *)
Record Response : Type := {
  StatusCode : Z;
  RespBody : result (list byte)
}.

(** [*http.Client]: the outcome of a round trip started at an instant. *)
Definition http_Client : Type := nat -> Request -> result Response.

(** ** gjson

    A parsed document.  [Absent] is the zero [Result] that [Get] returns
    for a path that does not exist (type Null, empty raw text). *)
Inductive Result : Type :=
| Absent
| JNull
| JFalse
| JTrue
| JNumber (raw : string) (num : spec_float)
| JString (str : string)
| JObject (raw : string) (members : list (string * Result))
| JArray (raw : string) (elems : list Result).

(** Everything the package uses from its environment.  [clock] is
    [time.Now().UnixMilli()], [entropy t i] the [i]-th byte read from
    [crypto/rand.Reader] at instant [t]. *)
Record Runtime : Type := {
  clock : nat -> Z;
  entropy : nat -> nat -> byte;
  Available : Hash -> bool;
  Hash_String : Hash -> string;
  Hash_Sum : Hash -> list byte -> list byte;
  SignPKCS1v15 : nat -> rsa_PrivateKey -> Hash -> list byte -> result (list byte);
  json_Marshal : X -> result (list byte);
  url_Parse : string -> option error;
  gjson_ParseBytes : list byte -> Result;
  FormatFloat : spec_float -> string
}.

(** The state the package acts on: logical time, and the requests handed
    to the transport so far. *)
Record World : Type := {
  instant : nat;
  wire : list Request
}.

(** ** The monad of effectful code *)
Definition M (A : Type) : Type := World -> result A * World.

Definition pure {A} (a : A) : M A := fun w => (Ok a, w).

Definition fail {A} (e : error) : M A := fun w => (Err e, w).

Definition bind {A B} (m : M A) (k : A -> M B) : M B :=
  fun w =>
    match m w with
    | (Ok a, w') => k a w'
    | (Err e, w') => (Err e, w')
    end.

Notation "x <- m ;; k" := (bind m (fun x => k))
  (at level 100, m at next level, right associativity).

(** [v, err := f()] followed by [if err != nil { return err }]. *)
Definition lift {A} (r : result A) : M A := fun w => (r, w).

(** [v, err := f()] with [err] inspected by the caller. *)
Definition try {A} (m : M A) : M (result A) :=
  fun w => let '(r, w') := m w in (Ok r, w').

Definition tick (w : World) : World :=
  {| instant := S (instant w); wire := wire w |}.

Definition now : M nat := fun w => (Ok (instant w), w).

(* ===================================================================== *)
(** * gjson: reading a parsed document *)
(* ===================================================================== *)

Fixpoint lookup_member (key : string) (members : list (string * Result)) : Result :=
  match members with
  | [] => Absent
  | (k, v) :: rest => if String.eqb k key then v else lookup_member key rest
  end.

(** [t.Get(path)] for a path that is a plain key: the first member of an
    object with that name; nothing for any other kind of value. *)
Definition Get (t : Result) (path : string) : Result :=
  match t with
  | JObject _ members => lookup_member path members
  | _ => Absent
  end.

(** ASCII part of [strings.ToLower]. *)
Definition lower_ascii (c : ascii) : ascii :=
  let n := N_of_ascii c in
  if (65 <=? n)%N && (n <=? 90)%N then ascii_of_N (n + 32) else c.

Fixpoint ToLower (s : string) : string :=
  match s with
  | EmptyString => EmptyString
  | String c rest => String (lower_ascii c) (ToLower rest)
  end.

(** [b, _ := strconv.ParseBool(s)] on a lower-cased string. *)
Definition ParseBool (s : string) : bool :=
  String.eqb s "1" || String.eqb s "t" || String.eqb s "true".

(** [t.Bool()] *)
Definition Bool (t : Result) : bool :=
  match t with
  | JTrue => true
  | JString str => ParseBool (ToLower str)
  | JNumber _ num => match num with S754_zero _ => false | _ => true end
  | _ => false
  end.

Definition is_digit (c : ascii) : bool :=
  let n := N_of_ascii c in (48 <=? n)%N && (n <=? 57)%N.

(** Is the raw text of a number an optional ['-'] followed by digits only? *)
Definition plain_integer (raw : string) : bool :=
  match raw with
  | EmptyString => false
  | String c rest =>
      if Ascii.eqb c "-" then forallb is_digit (list_ascii_of_string rest)
      else forallb is_digit (list_ascii_of_string raw)
  end.

Section Environment.

Context (R : Runtime).

(** [t.String()] *)
Definition String_ (t : Result) : string :=
  match t with
  | JFalse => "false"
  | JNumber raw num => if plain_integer raw then raw else FormatFloat R num
  | JString str => str
  | JObject raw _ => raw
  | JArray raw _ => raw
  | JTrue => "true"
  | _ => EmptyString
  end.

(* ===================================================================== *)
(** * util.go: [PrivateKey.Sign] *)
(* ===================================================================== *)

(** [fmt.Errorf] of the two formats the package uses. *)
Definition Errorf_unavailable (name : string) : error :=
  errorString ("crypto: requested hash function (" +:+ name +:+ ") is unavailable").

Definition Errorf_antchain (code data : string) : error :=
  errorString ("antchain: " +:+ code +:+ " | " +:+ data).

(** [func (pk *PrivateKey) Sign(hash crypto.Hash, data []byte) ([]byte, error)] *)
Definition Sign (pk : PrivateKey) (hash : Hash) (data : list byte) : M (list byte) :=
  if negb (Available R hash) then
    fail (Errorf_unavailable (Hash_String R hash))
  else
    fun w =>
      let digest := Hash_Sum R hash data in
      (SignPKCS1v15 R (instant w) (pk_key pk) hash digest, tick w).

(* ===================================================================== *)
(** * google/uuid: version-4 identifiers *)
(* ===================================================================== *)

Definition byte_of_N (n : N) : byte :=
  match Byte.of_N (n mod 256) with
  | Some b => b
  | None => x00
  end.

Definition byte_and (a b : byte) : byte := byte_of_N (N.land (Byte.to_N a) (Byte.to_N b)).
Definition byte_or (a b : byte) : byte := byte_of_N (N.lor (Byte.to_N a) (Byte.to_N b)).

(** [type UUID [16]byte] *)
Definition UUID : Type := list byte.

(** [rand.Read] of [n] bytes. *)
Definition rand_Read (n : nat) : M (list byte) :=
  fun w => (Ok (map (entropy R (instant w)) (seq 0 n)), tick w).

(** The two assignments of [NewRandom]:
    [uuid[6] = (uuid[6] & 0x0f) | 0x40] and
    [uuid[8] = (uuid[8] & 0x3f) | 0x80]. *)
Definition stamp_v4 (u : UUID) : UUID :=
  let u := alter (fun b => byte_or (byte_and b x0f) x40) 6%nat u in
  alter (fun b => byte_or (byte_and b x3f) x80) 8%nat u.

(** [uuid.New()] *)
Definition uuid_New : M UUID :=
  raw <- rand_Read 16 ;;
  pure (stamp_v4 raw).

(** [uuid[lo:hi]] *)
Definition slice (u : list byte) (lo hi : nat) : list byte := take (hi - lo) (drop lo u).

(** [func (uuid UUID) String() string]: [encodeHex] writes the five hex
    groups with ['-'] between them. *)
Definition UUID_String (u : UUID) : string :=
  hex_EncodeToString (slice u 0 4) +:+ "-" +:+
  hex_EncodeToString (slice u 4 6) +:+ "-" +:+
  hex_EncodeToString (slice u 6 8) +:+ "-" +:+
  hex_EncodeToString (slice u 8 10) +:+ "-" +:+
  hex_EncodeToString (slice u 10 16).

End Environment.

(* ===================================================================== *)
(** * util.go: identities and contract output *)
(* ===================================================================== *)

(** ** encoding/base64: [StdEncoding] *)

Definition encodeStd : string :=
  "ABCDEFGHIJKLMNOPQRSTUVWXYZabcdefghijklmnopqrstuvwxyz0123456789+/".

Definition StdPadding : ascii := "="%char.

(** [uint(b)] and [byte(v)] *)
Definition uint_of_byte (b : byte) : Z := Z.of_N (Byte.to_N b).
Definition byte_of_uint (v : Z) : byte := byte_of_N (Z.to_N (v mod 256)).

(** [enc.encode[i]] *)
Definition encode_char (i : Z) : ascii :=
  match String.get (Z.to_nat i) encodeStd with
  | Some c => c
  | None => "A"%char
  end.

(** [enc.encode[val>>shift&0x3F]] *)
Definition sextet (val shift : Z) : ascii := encode_char (Z.land (Z.shiftr val shift) 63).

(** [enc.Encode]: three bytes become four characters; a rest of one or two
    bytes is padded with ['=']. *)
Fixpoint base64_Encode (src : list byte) : string :=
  match src with
  | [] => EmptyString
  | [b0] =>
      let val := Z.shiftl (uint_of_byte b0) 16 in
      String (sextet val 18) (String (sextet val 12)
        (String StdPadding (String StdPadding EmptyString)))
  | [b0; b1] =>
      let val := Z.lor (Z.shiftl (uint_of_byte b0) 16) (Z.shiftl (uint_of_byte b1) 8) in
      String (sextet val 18) (String (sextet val 12)
        (String (sextet val 6) (String StdPadding EmptyString)))
  | b0 :: b1 :: b2 :: rest =>
      let val := Z.lor (Z.lor (Z.shiftl (uint_of_byte b0) 16)
                              (Z.shiftl (uint_of_byte b1) 8))
                       (uint_of_byte b2) in
      String (sextet val 18) (String (sextet val 12)
        (String (sextet val 6) (String (sextet val 0) (base64_Encode rest))))
  end.

Definition base64_EncodeToString (src : list byte) : string := base64_Encode src.

Fixpoint index_from (c : ascii) (s : string) (i : Z) : option Z :=
  match s with
  | EmptyString => None
  | String c' rest => if Ascii.eqb c c' then Some i else index_from c rest (i + 1)%Z
  end.

(** [enc.decodeMap[in]]; [None] is the entry [0xff]. *)
Definition decodeMap (c : ascii) : option Z := index_from c encodeStd 0.

(** [type CorruptInputError int64] and its [Error] method. *)
Definition CorruptInputError (off : Z) : error :=
  errorString ("illegal base64 data at input byte " +:+ FormatInt off).

Definition is_newline (c : ascii) : bool :=
  Ascii.eqb c "010"%char || Ascii.eqb c "013"%char.

(** [for si < len(src) && (src[si] == '\n' || src[si] == '\r') { si++ }] *)
Fixpoint skip_newlines (src : string) (si : Z) : string * Z :=
  match src with
  | EmptyString => (src, si)
  | String c rest => if is_newline c then skip_newlines rest (si + 1)%Z else (src, si)
  end.

(** The end of [decodeQuantum]: the [dlen] six-bit values collected give
    [dlen - 1] bytes. *)
Definition quantum_bytes (dbuf : list Z) : list byte :=
  let d (i : nat) := nth i dbuf 0%Z in
  let val := Z.lor (Z.lor (Z.lor (Z.shiftl (d 0%nat) 18) (Z.shiftl (d 1%nat) 12))
                          (Z.shiftl (d 2%nat) 6))
                   (d 3%nat) in
  take (length dbuf - 1)
    [byte_of_uint (Z.shiftr val 16); byte_of_uint (Z.shiftr val 8); byte_of_uint val].

(** After padding: newlines may follow, anything else is trailing garbage
    (the bytes of the quantum are still delivered, with the error). *)
Definition after_padding (rest : string) (si : Z) (dbuf : list Z)
    : list byte * option error :=
  let '(rest, si) := skip_newlines rest si in
  (quantum_bytes dbuf,
   match rest with
   | EmptyString => None
   | String _ _ => Some (CorruptInputError si)
   end).

(** The padding branch of [decodeQuantum]; [si] is the index after the
    ['='] just read, [dbuf] holds the [j] values collected before it. *)
Definition padding (rest : string) (si : Z) (dbuf : list Z) : list byte * option error :=
  match length dbuf with
  | 0%nat | 1%nat => ([], Some (CorruptInputError (si - 1)))
  | 2%nat =>
      let '(rest, si) := skip_newlines rest si in
      match rest with
      | EmptyString => ([], Some (CorruptInputError si))
      | String c rest' =>
          if negb (Ascii.eqb c StdPadding) then ([], Some (CorruptInputError (si - 1)))
          else after_padding rest' (si + 1) dbuf
      end
  | _ => after_padding rest si dbuf
  end.

(** [enc.Decode]: quantum after quantum.  [si] is the index of the next
    input byte and [dbuf] what the current quantum has collected. *)
Fixpoint Decode_from (src : string) (si : Z) (dbuf : list Z) : list byte * option error :=
  match src with
  | EmptyString =>
      match dbuf with
      | [] => ([], None)
      | _ :: _ => ([], Some (CorruptInputError (si - Z.of_nat (length dbuf))))
      end
  | String in_ rest =>
      match decodeMap in_ with
      | Some out =>
          let dbuf := (dbuf ++ [out])%list in
          if (length dbuf =? 4)%nat then
            let '(more, err) := Decode_from rest (si + 1) [] in
            ((quantum_bytes dbuf ++ more)%list, err)
          else Decode_from rest (si + 1) dbuf
      | None =>
          if is_newline in_ then Decode_from rest (si + 1) dbuf
          else if negb (Ascii.eqb in_ StdPadding) then
            ([], Some (CorruptInputError si))
          else padding rest (si + 1) dbuf
      end
  end.

(** [enc.DecodeString]: the bytes decoded, and the error if any. *)
Definition base64_DecodeString (s : string) : list byte * option error :=
  Decode_from s 0 [].

(** [func ParseOutput(data string) (string, error)] *)
Definition ParseOutput (data : string) : result string :=
  let '(b, err) := base64_DecodeString data in
  match err with
  | Some e => Err e
  | None => Ok (hex_EncodeToString b)
  end.

(** [type Identity struct { Data string }] *)
Record Identity : Type := { Data : string }.

(** [func GetIdentityByName(name string)], returning the identity. *)
Definition GetIdentityByName (R : Runtime) (name : string) : Identity :=
  {| Data := base64_EncodeToString (Hash_Sum R SHA256 (list_byte_of_string name)) |}.

(* ===================================================================== *)
(** * The client *)
(* ===================================================================== *)

Record Config : Type := {
  BizID : string;
  Endpoint : string;
  TenantID : string;
  AccessID : string;
  AccessKey : string;
  Account : string;
  MyKmsKeyID : string
}.

(** [type ChainCallOption func(params X)]: the map is shared with the
    caller, so running an option is a map transformer. *)
Definition ChainCallOption : Type := X -> X.

(** [func WithParam(key string, value interface{}) ChainCallOption] *)
Definition WithParam (key : string) (value : any) : ChainCallOption :=
  fun params => <[key := value]> params.

(** [for _, f := range options { f(params) }] *)
Definition apply_options (options : list ChainCallOption) (params : X) : X :=
  fold_left (fun params f => f params) options params.

Record client : Type := {
  cli : http_Client;
  cfg : Config;
  key : PrivateKey
}.

Definition MethodPost : string := "POST".

Section Client.

Context (R : Runtime).

(** [time.Now().UnixMilli()] *)
Definition UnixMilli : M Z :=
  fun w => (Ok (clock R (instant w)), tick w).

(** [http.NewRequestWithContext]: fails when the URL does not parse. *)
Definition NewRequestWithContext (ctx : Context) (method url : string)
    (body : list byte) : result Request :=
  match url_Parse R url with
  | Some e => Err e
  | None =>
      Ok {| Method := method; URL := url; ReqBody := body; Header := [];
            ReqCtx := ctx |}
  end.

(** [req.Header.Set(k, v)] *)
Definition Header_Set (req : Request) (k v : string) : Request :=
  {| Method := Method req; URL := URL req; ReqBody := ReqBody req;
     Header := (k, v) :: List.filter (fun kv => negb (String.eqb (fst kv) k)) (Header req);
     ReqCtx := ReqCtx req |}.

(** [c.cli.Do(req)]: one round trip; the request goes on the wire. *)
Definition Client_Do (hc : http_Client) (req : Request) : M Response :=
  fun w =>
    (hc (instant w) req,
     {| instant := S (instant w); wire := wire w ++ [req] |}).

(** [func (c *client) do(ctx, reqURL string, params X) (string, error)] *)
Definition do (c : client) (ctx : Context) (reqURL : string) (params : X) : M string :=
  body <- lift (json_Marshal R params) ;;
  req <- lift (NewRequestWithContext ctx MethodPost reqURL body) ;;
  let req := Header_Set req "Content-Type" "application/json; charset=utf-8" in
  r <- try (Client_Do (cli c) req) ;;
  match r with
  | Err err =>
      t <- now ;;
      fail (if Done ctx t then ctx_Err ctx else err)
  | Ok resp =>
      b <- lift (RespBody resp) ;;
      let ret := gjson_ParseBytes R b in
      if negb (Bool (Get ret "success")) then
        fail (Errorf_antchain (String_ R (Get ret "code")) (String_ R (Get ret "data")))
      else
        pure (String_ R (Get ret "data"))
  end.

(** The composite literal of [shakehand]. *)
Definition shakehand_params (accessID timeStr : string) (sign : list byte) : X :=
  {[ "accessId" := VString accessID;
     "time" := VString timeStr;
     "secret" := VString (hex_EncodeToString sign) ]}.

(** [func (c *client) shakehand(ctx) (string, error)] *)
Definition shakehand (c : client) (ctx : Context) : M string :=
  ms <- UnixMilli ;;
  let timeStr := FormatInt ms in
  sign <- Sign R (key c) SHA256 (list_byte_of_string (AccessID (cfg c) +:+ timeStr)) ;;
  let params := shakehand_params (AccessID (cfg c)) timeStr sign in
  do c ctx (Endpoint (cfg c) +:+ SHAKE_HAND) params.

(** The parameter assembly of [chainCall], after the handshake. *)
Definition chainCall_params (c : client) (method token : string)
    (options : list ChainCallOption) : X :=
  let params : X := ∅ in
  let params := apply_options options params in
  let params := <["bizid" := VString (BizID (cfg c))]> params in
  let params := <["accessId" := VString (AccessID (cfg c))]> params in
  let params := <["method" := VString method]> params in
  let params := <["token" := VString token]> params in
  params.

(** [func (c *client) chainCall(ctx, method string, options ...ChainCallOption)] *)
Definition chainCall (c : client) (ctx : Context) (method : string)
    (options : list ChainCallOption) : M string :=
  token <- shakehand c ctx ;;
  let params := chainCall_params c method token options in
  do c ctx (Endpoint (cfg c) +:+ CHAIN_CALL) params.

(** The parameter assembly of [chainCallForBiz], after the handshake and
    with the identifier [uuid.New()] returned. *)
Definition chainCallForBiz_params (c : client) (method token : string)
    (options : list ChainCallOption) (id : UUID) : X :=
  let params : X := ∅ in
  let params := apply_options options params in
  let params := <["orderId" := VString (UUID_String id)]> params in
  let params := <["bizid" := VString (BizID (cfg c))]> params in
  let params := <["account" := VString (Account (cfg c))]> params in
  let params := <["mykmsKeyId" := VString (MyKmsKeyID (cfg c))]> params in
  let params := <["method" := VString method]> params in
  let params := <["accessId" := VString (AccessID (cfg c))]> params in
  let params := <["tenantid" := VString (TenantID (cfg c))]> params in
  let params := <["token" := VString token]> params in
  params.

(** [func (c *client) chainCallForBiz(ctx, method string, options ...ChainCallOption)] *)
Definition chainCallForBiz (c : client) (ctx : Context) (method : string)
    (options : list ChainCallOption) : M string :=
  token <- shakehand c ctx ;;
  id <- uuid_New R ;;
  let params := chainCallForBiz_params c method token options id in
  do c ctx (Endpoint (cfg c) +:+ CHAIN_CALL_FOR_BIZ) params.

End Client.

(* ===================================================================== *)
(** * util.go: loading the private key; the client constructor *)
(* ===================================================================== *)

(** [type PemBlockType string] and its two constants. *)
Definition PemBlockType : Type := string.
Definition RSAPKCS1 : PemBlockType := "RSA PRIVATE KEY".
Definition RSAPKCS8 : PemBlockType := "PRIVATE KEY".

(** [*pem.Block] *)
Record pem_Block : Type := {
  Type_ : string;
  Bytes : list byte
}.

(** The [interface{}] variable [pk]: nil, an RSA key, or a key of another
    dynamic type (as [x509.ParsePKCS8PrivateKey] returns for ECDSA or
    Ed25519 keys). *)
Inductive key_any : Type :=
| nil_key
| rsa_key (k : rsa_PrivateKey)
| other_key (dynamic_type : string).

(** What key loading and client construction use from the host: the file
    system, the PEM and X.509 decoders, and the transport that the
    [http.Client] literal of [NewClient] stands for. *)
Record Host : Type := {
  filepath_Abs : string -> result string;
  ioutil_ReadFile : string -> result (list byte);
  pem_Decode : list byte -> option pem_Block;
  x509_ParsePKCS1PrivateKey : list byte -> result rsa_PrivateKey;
  x509_ParsePKCS8PrivateKey : list byte -> result key_any;
  http_Client_literal : http_Client
}.

(** A call either returns or panics. *)
Inductive outcome (A : Type) : Type :=
| Returns (r : result A)
| Panics (msg : string).
Arguments Returns {A} r.
Arguments Panics {A} msg.

(** The type assertion of [pk] to a pointer to [rsa.PrivateKey], which
    panics unless [pk] holds an RSA key. *)
Definition assert_rsa (pk : key_any) : outcome PrivateKey :=
  match pk with
  | rsa_key k => Returns (Ok {| pk_key := k |})
  | nil_key => Panics "interface conversion: interface {} is nil, not *rsa.PrivateKey"
  | other_key t =>
      Panics ("interface conversion: interface {} is " +:+ t +:+ ", not *rsa.PrivateKey")
  end.

(** The [switch] on the block type: [pk] and [err] keep their previous
    values (nil) when no case matches. *)
Definition parse_block (H : Host) (block : pem_Block) : result key_any :=
  if String.eqb (Type_ block) RSAPKCS1 then
    match x509_ParsePKCS1PrivateKey H (Bytes block) with
    | Ok k => Ok (rsa_key k)
    | Err err => Err err
    end
  else if String.eqb (Type_ block) RSAPKCS8 then
    x509_ParsePKCS8PrivateKey H (Bytes block)
  else Ok nil_key.

(** [func NewPrivateKeyFromPemFile(pemFile string)], returning the key or
    an error. *)
Definition NewPrivateKeyFromPemFile (H : Host) (pemFile : string) : outcome PrivateKey :=
  match filepath_Abs H pemFile with
  | Err err => Returns (Err err)
  | Ok keyPath =>
      match ioutil_ReadFile H keyPath with
      | Err err => Returns (Err err)
      | Ok b =>
          match pem_Decode H b with
          | None => Returns (Err (errorString "no PEM data is found"))
          | Some block =>
              match parse_block H block with
              | Err err => Returns (Err err)
              | Ok pk => assert_rsa pk
              end
          end
      end
  end.

(** [type ClientOption func(c *client)]: the client is shared with the
    constructor, so running an option is a client transformer. *)
Definition ClientOption : Type := client -> client.

(** [func WithHTTPClient(cli *http.Client) ClientOption] *)
Definition WithHTTPClient (cli : http_Client) : ClientOption :=
  fun c => {| cli := cli; cfg := cfg c; key := key c |}.

(** [func NewClient(cfg *Config, options ...ClientOption) (Client, error)] *)
Definition NewClient (H : Host) (cfg : Config) (options : list ClientOption)
    : outcome client :=
  match NewPrivateKeyFromPemFile H (AccessKey cfg) with
  | Panics msg => Panics msg
  | Returns (Err err) => Returns (Err err)
  | Returns (Ok pk) =>
      let c := {| cli := http_Client_literal H; cfg := cfg; key := pk |} in
      Returns (Ok (fold_left (fun c f => f c) options c))
  end.

(* ===================================================================== *)
(** * The later revision of the client: [do] over the executor interface *)
(* ===================================================================== *)

Module Rev1.

(** Modelled from the spec: the executor interface [HTTPClient], whose
    declaration and implementation are not among the sources.  The spec
    gives it as [Do(ctx, method, url, body, headers)], cancellable via
    [ctx], returning the response or an error. *)
Definition HTTPClient : Type := nat -> Request -> result Response.

Record client : Type := {
  hc : HTTPClient;
  cfg : Config;
  key : PrivateKey
}.

Section Client.

Context (R : Runtime).

Definition Errorf_Err (code data : string) : error :=
  errorString ("Err " +:+ code +:+ " | " +:+ data).

(** [c.hc.Do(ctx, method, reqURL, body, options...)] *)
Definition HTTPClient_Do (h : HTTPClient) (ctx : Context) (method reqURL : string)
    (body : list byte) (header : list (string * string)) : M Response :=
  fun w =>
    let req := {| Method := method; URL := reqURL; ReqBody := body;
                  Header := header; ReqCtx := ctx |} in
    (h (instant w) req,
     {| instant := S (instant w); wire := wire w ++ [req] |}).

(** [func (c *client) do(ctx, reqURL string, params X) (string, error)] *)
Definition do (c : client) (ctx : Context) (reqURL : string) (params : X) : M string :=
  body <- lift (json_Marshal R params) ;;
  resp <- HTTPClient_Do (hc c) ctx MethodPost reqURL body
            [("Content-Type", "application/json; charset=utf-8")] ;;
  b <- lift (RespBody resp) ;;
  let ret := gjson_ParseBytes R b in
  if negb (Bool (Get ret "success")) then
    fail (Errorf_Err (String_ R (Get ret "code")) (String_ R (Get ret "data")))
  else
    pure (String_ R (Get ret "data")).

End Client.

(** [func NewPrivateKeyFromPemBlock(b []byte)] of this revision: the
    decoding steps of the loader, on bytes already read. *)
Definition NewPrivateKeyFromPemBlock (H : Host) (b : list byte) : outcome PrivateKey :=
  match pem_Decode H b with
  | None => Returns (Err (errorString "invalid rsa private key for pem.Decode"))
  | Some block =>
      match parse_block H block with
      | Err err => Returns (Err err)
      | Ok pk => assert_rsa pk
      end
  end.

End Rev1.

(* ===================================================================== *)
(** * A concrete environment, for running the definitions *)
(* ===================================================================== *)

Definition dq : string := String (ascii_of_nat 34) EmptyString.

(** The body [{"success":false,"code":"E1","data":"boom"}]. *)
Definition body_E1 : list byte :=
  list_byte_of_string
    ("{" +:+ dq +:+ "success" +:+ dq +:+ ":false," +:+
     dq +:+ "code" +:+ dq +:+ ":" +:+ dq +:+ "E1" +:+ dq +:+ "," +:+
     dq +:+ "data" +:+ dq +:+ ":" +:+ dq +:+ "boom" +:+ dq +:+ "}").

Definition doc_E1 : Result :=
  JObject (string_of_list_byte body_E1)
    [("success", JFalse); ("code", JString "E1"); ("data", JString "boom")].

(** The body [{"success":true,"data":"deadbeef"}]. *)
Definition body_deadbeef : list byte :=
  list_byte_of_string
    ("{" +:+ dq +:+ "success" +:+ dq +:+ ":true," +:+
     dq +:+ "data" +:+ dq +:+ ":" +:+ dq +:+ "deadbeef" +:+ dq +:+ "}").

Definition doc_deadbeef : Result :=
  JObject (string_of_list_byte body_deadbeef)
    [("success", JTrue); ("data", JString "deadbeef")].

(** The body [{"data":"deadbeef"}]: no [success] member. *)
Definition body_nosuccess : list byte :=
  list_byte_of_string
    ("{" +:+ dq +:+ "data" +:+ dq +:+ ":" +:+ dq +:+ "deadbeef" +:+ dq +:+ "}").

Definition doc_nosuccess : Result :=
  JObject (string_of_list_byte body_nosuccess) [("data", JString "deadbeef")].

Definition list_byte_eqb (a b : list byte) : bool :=
  String.eqb (string_of_list_byte a) (string_of_list_byte b).

(** A runtime whose clock shows [1700000000000 + t], whose signer and
    encoder always succeed, and whose parser knows the three bodies above. *)
Definition demo_runtime : Runtime := {|
  clock := fun t => (1700000000000 + Z.of_nat t)%Z;
  entropy := fun t i => byte_of_N (N.of_nat (17 * t + 29 * i + 3));
  Available := fun h => N.eqb h SHA256;
  Hash_String := fun _ => "SHA-256";
  Hash_Sum := fun _ data => data;
  SignPKCS1v15 := fun _ _ _ digest => Ok (rev digest);
  json_Marshal := fun params =>
    Ok (list_byte_of_string
          (match params !! "token" with
           | Some (VString s) => s
           | _ => EmptyString
           end));
  url_Parse := fun _ => None;
  gjson_ParseBytes := fun b =>
    if list_byte_eqb b body_E1 then doc_E1
    else if list_byte_eqb b body_deadbeef then doc_deadbeef
    else if list_byte_eqb b body_nosuccess then doc_nosuccess
    else Absent;
  FormatFloat := fun _ => "0"
|}.

Definition demo_config : Config := {|
  BizID := "a00e36c5";
  Endpoint := "https://rest.baas.alipay.com";
  TenantID := "tenant";
  AccessID := "access";
  AccessKey := "key.pem";
  Account := "alice";
  MyKmsKeyID := "kms"
|}.

Definition demo_key : PrivateKey :=
  {| pk_key := {| rsa_N := 3233; rsa_E := 17; rsa_D := 2753; rsa_Primes := [61; 53]%Z |} |}.

Definition respond (body : list byte) : result Response :=
  Ok {| StatusCode := 200; RespBody := Ok body |}.

(** A server answering every request with the same body. *)
Definition demo_client (body : list byte) : client :=
  {| cli := fun _ _ => respond body; cfg := demo_config; key := demo_key |}.

(** A server answering the handshake with [first] and anything else with
    [second]. *)
Definition demo_client2 (first second : list byte) : client :=
  {| cli := fun _ req =>
       if String.eqb (URL req) (Endpoint demo_config +:+ SHAKE_HAND)
       then respond first else respond second;
     cfg := demo_config; key := demo_key |}.

(** A transport that fails every round trip. *)
Definition broken_client : client :=
  {| cli := fun _ _ => Err (Foreign "net/http" "connection reset");
     cfg := demo_config; key := demo_key |}.

Definition w0 : World := {| instant := 0; wire := [] |}.

(** A host with four key files: [rsa.pem] (PKCS#1), [pkcs8.pem] (PKCS#8
    holding an RSA key), [ec8.pem] (PKCS#8 holding an ECDSA key) and
    [ec.pem] (a block of type EC PRIVATE KEY); any other file has no PEM
    block, and [missing.pem] cannot be read. *)
Definition demo_host : Host := {|
  filepath_Abs := fun f => Ok ("/etc/antchain/" +:+ f);
  ioutil_ReadFile := fun p =>
    if String.eqb p "/etc/antchain/missing.pem"
    then Err (Foreign "os" "no such file or directory")
    else Ok (list_byte_of_string p);
  pem_Decode := fun b =>
    let p := string_of_list_byte b in
    if String.eqb p "/etc/antchain/rsa.pem"
    then Some {| Type_ := "RSA PRIVATE KEY"; Bytes := [] |}
    else if String.eqb p "/etc/antchain/pkcs8.pem"
    then Some {| Type_ := "PRIVATE KEY"; Bytes := [] |}
    else if String.eqb p "/etc/antchain/ec8.pem"
    then Some {| Type_ := "PRIVATE KEY"; Bytes := [x01] |}
    else if String.eqb p "/etc/antchain/ec.pem"
    then Some {| Type_ := "EC PRIVATE KEY"; Bytes := [] |}
    else None;
  x509_ParsePKCS1PrivateKey := fun _ => Ok (pk_key demo_key);
  x509_ParsePKCS8PrivateKey := fun der =>
    match der with
    | [] => Ok (rsa_key (pk_key demo_key))
    | _ :: _ => Ok (other_key "*ecdsa.PrivateKey")
    end;
  http_Client_literal := fun _ _ => respond body_deadbeef
|}.

(** The demo runtime without SHA-256. *)
Definition nohash_runtime : Runtime := {|
  clock := clock demo_runtime;
  entropy := entropy demo_runtime;
  Available := fun _ => false;
  Hash_String := Hash_String demo_runtime;
  Hash_Sum := Hash_Sum demo_runtime;
  SignPKCS1v15 := SignPKCS1v15 demo_runtime;
  json_Marshal := json_Marshal demo_runtime;
  url_Parse := url_Parse demo_runtime;
  gjson_ParseBytes := gjson_ParseBytes demo_runtime;
  FormatFloat := FormatFloat demo_runtime
|}.

(** The demo runtime with an encoder that rejects a map holding an opaque
    value, and a URL parser that rejects a URL starting with a colon. *)
Definition picky_runtime : Runtime := {|
  clock := clock demo_runtime;
  entropy := entropy demo_runtime;
  Available := Available demo_runtime;
  Hash_String := Hash_String demo_runtime;
  Hash_Sum := Hash_Sum demo_runtime;
  SignPKCS1v15 := SignPKCS1v15 demo_runtime;
  json_Marshal := fun params =>
    match params !! "callback" with
    | Some (VOpaque _) => Err (Foreign "json" "unsupported type: func()")
    | _ => json_Marshal demo_runtime params
    end;
  url_Parse := fun u =>
    match u with
    | String ":" _ => Some (Foreign "net/url" "missing protocol scheme")
    | _ => None
    end;
  gjson_ParseBytes := gjson_ParseBytes demo_runtime;
  FormatFloat := FormatFloat demo_runtime
|}.

(** A server answering every request with status 500 and the same body. *)
Definition failing_status_client (body : list byte) : client :=
  {| cli := fun _ _ => Ok {| StatusCode := 500; RespBody := Ok body |};
     cfg := demo_config; key := demo_key |}.

(** The later revision's client over the demo configuration. *)
Definition demo_client_rev1 (h : Rev1.HTTPClient) : Rev1.client :=
  {| Rev1.hc := h; Rev1.cfg := demo_config; Rev1.key := demo_key |}.

(* ===================================================================== *)
(** * Vocabulary for the statements *)
(* ===================================================================== *)

(** The request [do] hands to the transport for a URL and an encoded body. *)
Definition post_request (ctx : Context) (reqURL : string) (body : list byte) : Request :=
  {| Method := MethodPost; URL := reqURL; ReqBody := body;
     Header := [("Content-Type", "application/json; charset=utf-8")];
     ReqCtx := ctx |}.

(** The world after one round trip carrying [req]. *)
Definition after_round_trip (w : World) (req : Request) : World :=
  {| instant := S (instant w); wire := wire w ++ [req] |}.

(** A transport honours cancellation when a round trip whose context is
    done by the time it completes is reported as failed. *)
Definition HonoursCancellation (hc : http_Client) : Prop :=
  forall (t : nat) (req : Request),
    Done (ReqCtx req) (S t) = true -> exists e, hc t req = Err e.

(** Does an object carry a member with this name? *)
Definition has_member (key : string) (t : Result) : bool :=
  match t with
  | JObject _ members => existsb (fun kv => String.eqb (fst kv) key) members
  | _ => false
  end.

(** A list of key/value pairs as the options [WithParam k v]. *)
Definition injectors (kvs : list (string * any)) : list ChainCallOption :=
  map (fun kv => WithParam (fst kv) (snd kv)) kvs.

(** The value of the last pair with key [k], if any. *)
Fixpoint last_value (k : string) (kvs : list (string * any)) : option any :=
  match kvs with
  | [] => None
  | (k', v) :: rest =>
      match last_value k rest with
      | Some v' => Some v'
      | None => if String.eqb k' k then Some v else None
      end
  end.



(** The sixteen bytes [uuid.New()] draws at an instant. *)
Definition drawn (R : Runtime) (t : nat) : list byte := map (entropy R t) (seq 0 16).

(** The round trip [do] starts in world [w] for these arguments reaches
    the server and is answered with body [b]. *)
Definition answered (R : Runtime) (c : client) (ctx : Context) (reqURL : string)
    (params : X) (w : World) (b : list byte) : Prop :=
  exists (body : list byte) (resp : Response),
    json_Marshal R params = Ok body /\
    url_Parse R reqURL = None /\
    cli c (instant w) (post_request ctx reqURL body) = Ok resp /\
    RespBody resp = Ok b.

(** An operation failed with an error whose message shows both the code
    and the data of the envelope. *)
Definition RemoteFailure (r : result string) (code data : string) : Prop :=
  r <> Ok data /\
  exists e, r = Err e /\ Contains (Error e) code /\ Contains (Error e) data.

(** What the envelope in body [b] makes of a call. *)
Definition envelope_result (R : Runtime) (b : list byte) : result string :=
  let ret := gjson_ParseBytes R b in
  if negb (Bool (Get ret "success")) then
    Err (Errorf_antchain (String_ R (Get ret "code")) (String_ R (Get ret "data")))
  else Ok (String_ R (Get ret "data")).

(** The request for these arguments can be built and sent. *)
Definition sendable (R : Runtime) (reqURL : string) (params : X) : Prop :=
  (exists body, json_Marshal R params = Ok body) /\ url_Parse R reqURL = None.

(** The handshake started in world [w] signs successfully with [sign]. *)
Definition handshake_signs (R : Runtime) (c : client) (w : World) (sign : list byte) : Prop :=
  Available R SHA256 = true /\
  SignPKCS1v15 R (S (instant w)) (pk_key (key c)) SHA256
    (Hash_Sum R SHA256
       (list_byte_of_string (AccessID (cfg c) +:+ FormatInt (clock R (instant w)))))
  = Ok sign.

(** The parameters of the handshake started in world [w]. *)
Definition handshake_params (R : Runtime) (c : client) (w : World) (sign : list byte) : X :=
  shakehand_params (AccessID (cfg c)) (FormatInt (clock R (instant w))) sign.

(** The handshake started in world [w] is answered with body [b]. *)
Definition handshake_answered (R : Runtime) (c : client) (ctx : Context) (w : World)
    (b : list byte) : Prop :=
  exists sign,
    handshake_signs R c w sign /\
    answered R c ctx (Endpoint (cfg c) +:+ SHAKE_HAND) (handshake_params R c w sign)
      (tick (tick w)) b.

(** The handshake of a generic call succeeds and its business request is
    answered with body [b]. *)
Definition chainCall_answered (R : Runtime) (c : client) (ctx : Context)
    (method : string) (options : list ChainCallOption) (w : World) (b : list byte) : Prop :=
  exists token w1,
    shakehand R c ctx w = (Ok token, w1) /\
    answered R c ctx (Endpoint (cfg c) +:+ CHAIN_CALL)
      (chainCall_params c method token options) w1 b.

(** The same for a business-scoped call. *)
Definition chainCallForBiz_answered (R : Runtime) (c : client) (ctx : Context)
    (method : string) (options : list ChainCallOption) (w : World) (b : list byte) : Prop :=
  exists token w1,
    shakehand R c ctx w = (Ok token, w1) /\
    answered R c ctx (Endpoint (cfg c) +:+ CHAIN_CALL_FOR_BIZ)
      (chainCallForBiz_params c method token options (stamp_v4 (drawn R (instant w1))))
      (tick w1) b.

(** The keys the two assemblers write themselves. *)
Definition chainCall_keys : list string :=
  ["bizid"; "accessId"; "method"; "token"].

Definition chainCallForBiz_keys : list string :=
  ["orderId"; "bizid"; "account"; "mykmsKeyId"; "method"; "accessId";
   "tenantid"; "token"].

(** The signature the demo signer returns for the first handshake. *)
Definition demo_sign : list byte := rev (list_byte_of_string "access1700000000000").

(** The world after the first demo handshake. *)
Definition demo_w1 : World :=
  snd (shakehand demo_runtime (demo_client body_deadbeef) Background w0).

(** A server that issues a new token at every instant: it answers with the
    decimal text of the instant, and the parser of [rotating_runtime] reads
    any body as a successful envelope carrying that text. *)
Definition rotating_runtime : Runtime := {|
  clock := clock demo_runtime;
  entropy := entropy demo_runtime;
  Available := Available demo_runtime;
  Hash_String := Hash_String demo_runtime;
  Hash_Sum := Hash_Sum demo_runtime;
  SignPKCS1v15 := SignPKCS1v15 demo_runtime;
  json_Marshal := json_Marshal demo_runtime;
  url_Parse := url_Parse demo_runtime;
  gjson_ParseBytes := fun b =>
    JObject (string_of_list_byte b)
      [("success", JTrue); ("data", JString (string_of_list_byte b))];
  FormatFloat := FormatFloat demo_runtime
|}.

Definition rotating_client : client :=
  {| cli := fun t _ => respond (list_byte_of_string (FormatInt (Z.of_nat t)));
     cfg := demo_config; key := demo_key |}.



(** A byte that is neither in the base64 alphabet nor padding nor a
    newline. *)
Definition outside (c : ascii) : bool :=
  match decodeMap c with
  | Some _ => false
  | None => negb (is_newline c) && negb (Ascii.eqb c StdPadding)
  end.

Definition has_outside (s : string) : bool := existsb outside (list_ascii_of_string s).

(** The decoder ended with a [CorruptInputError]. *)
Definition corrupt (r : list byte * option error) : Prop :=
  exists off : Z, snd r = Some (CorruptInputError off).

(** The number a byte string denotes, most significant byte first. *)
Definition be_value (src : list byte) : Z :=
  fold_left (fun acc b => (acc * 256 + uint_of_byte b)%Z) src 0%Z.

(** The requests put on the wire since [w]. *)
Definition sent_since (w w' : World) : list Request :=
  drop (length (wire w)) (wire w').

(** A request as [do] builds it for context [ctx]. *)
Definition well_formed (ctx : Context) (req : Request) : Prop :=
  Method req = "POST" /\
  Header req = [("Content-Type", "application/json; charset=utf-8")] /\
  ReqCtx req = ctx.

(** The failure of the later revision's [do]: as [RemoteFailure], for its
    message format. *)
Definition envelope_result_rev1 (R : Runtime) (b : list byte) : result string :=
  let ret := gjson_ParseBytes R b in
  if negb (Bool (Get ret "success")) then
    Err (Rev1.Errorf_Err (String_ R (Get ret "code")) (String_ R (Get ret "data")))
  else Ok (String_ R (Get ret "data")).

(* ===================================================================== *)
(** * Properties: the token-ID helper *)
(* ===================================================================== *)

Lemma digitVal16_hex (c : ascii) :
  (16 <=? digitVal 16 c)%Z = negb (is_hex_digit c).
Proof.
  destruct c as [b0 b1 b2 b3 b4 b5 b6 b7].
  destruct b0, b1, b2, b3, b4, b5, b6, b7; reflexivity.
Qed.

(** On digits only, the scanner consumes the whole input. *)
Lemma nat_scan_all_digits (s : string) (acc : Z) (n : nat) :
  forallb is_hex_digit (list_ascii_of_string s) = true ->
  exists v, nat_scan 16 s acc n = (v, (n + String.length s)%nat, EmptyString).
Proof.
  revert acc n. induction s as [|c s IH]; intros acc n Hall; simpl in *.
  - exists acc. by rewrite Nat.add_0_r.
  - apply andb_prop in Hall as [Hc Hs].
    rewrite digitVal16_hex, Hc. simpl.
    destruct (IH (acc * 16 + digitVal 16 c)%Z (S n) Hs) as [v Hv].
    exists v. rewrite Hv. f_equal. f_equal. lia.
Qed.

(** At the first character that is no digit the scanner stops and leaves
    it unread. *)
Lemma nat_scan_stops (s : string) (acc : Z) (n : nat) :
  forallb is_hex_digit (list_ascii_of_string s) = false ->
  exists v m c r, nat_scan 16 s acc n = (v, m, String c r).
Proof.
  revert acc n. induction s as [|c s IH]; intros acc n Hall; simpl in *.
  - discriminate.
  - rewrite digitVal16_hex.
    destruct (is_hex_digit c) eqn:Hc; simpl in *.
    + apply IH. exact Hall.
    + by exists acc, n, c, s.
Qed.

Lemma SetString_unread (s1 : string) (neg : bool) :
  forallb is_hex_digit (list_ascii_of_string s1) = false ->
  match nat_scan 16 s1 0 0 with
  | (_, O, _) => @None (Z * string)
  | (v, S _, rest) => Some (if neg then (- v)%Z else v, rest)
  end = None \/
  exists v c r,
    match nat_scan 16 s1 0 0 with
    | (_, O, _) => @None (Z * string)
    | (v, S _, rest) => Some (if neg then (- v)%Z else v, rest)
    end = Some (v, String c r).
Proof.
  intros H. destruct (nat_scan_stops s1 0 0 H) as (v & m & c & r & E).
  rewrite E. destruct m; [by left | right; eauto].
Qed.

Lemma SetString_invalid (token : string) :
  valid_hex_numeral token = false -> SetString token 16 = (None, false).
Proof.
  unfold valid_hex_numeral, SetString, Int_scan, scanSign, strip_sign.
  destruct token as [|c rest]; [reflexivity|].
  destruct (Ascii.eqb c "-") eqn:Hm; cbn -[nat_scan].
  - destruct rest as [|c' rest']; [reflexivity|]. intros H.
    destruct (SetString_unread (String c' rest') true H) as [E | (v & a & r & E)];
      by rewrite E.
  - destruct (Ascii.eqb c "+") eqn:Hp; cbn -[nat_scan].
    + destruct rest as [|c' rest']; [reflexivity|]. intros H.
      destruct (SetString_unread (String c' rest') false H) as [E | (v & a & r & E)];
        by rewrite E.
    + intros H.
      destruct (SetString_unread (String c rest) false H) as [E | (v & a & r & E)];
        by rewrite E.
Qed.

(** The other direction: a base-16 numeral always yields a value. *)
Lemma GetTokenID_valid (token : string) :
  valid_hex_numeral token = true -> exists v, GetTokenID token = Some v.
Proof.
  unfold GetTokenID, valid_hex_numeral, SetString, Int_scan, scanSign, strip_sign.
  assert (Hscan : forall (s : string) (neg : bool), s <> EmptyString ->
            forallb is_hex_digit (list_ascii_of_string s) = true ->
            exists v,
              match nat_scan 16 s 0 0 with
              | (_, O, _) => @None (Z * string)
              | (v, S _, rest) => Some (if neg then (- v)%Z else v, rest)
              end = Some (v, EmptyString)).
  { intros s neg Hne Hall.
    destruct (nat_scan_all_digits s 0 0 Hall) as [v Hv]. rewrite Hv.
    destruct s as [|c s']; [done|]. simpl. eauto. }
  destruct token as [|c rest]; [discriminate|].
  destruct (Ascii.eqb c "-") eqn:Hm; cbn -[nat_scan].
  - destruct rest as [|c' rest']; [discriminate|]. intros H.
    destruct (Hscan (String c' rest') true) as [v E]; [done|exact H|].
    rewrite E. eauto.
  - destruct (Ascii.eqb c "+") eqn:Hp; cbn -[nat_scan].
    + destruct rest as [|c' rest']; [discriminate|]. intros H.
      destruct (Hscan (String c' rest') false) as [v E]; [done|exact H|].
      rewrite E. eauto.
    + intros H.
      destruct (Hscan (String c rest) false) as [v E]; [done|exact H|].
      rewrite E. eauto.
Qed.

Example GetTokenID_ff : GetTokenID "ff" = Some 255%Z.
Proof. reflexivity. Qed.

Example GetTokenID_md5 :
  GetTokenID "d41d8cd98f00b204e9800998ecf8427e"
  = Some 281949768489412648962353822266799178366%Z.
Proof. reflexivity. Qed.

Example GetTokenID_empty : GetTokenID EmptyString = None.
Proof. reflexivity. Qed.

Example GetTokenID_prefixed : GetTokenID "0x10" = None.
Proof. reflexivity. Qed.

(** C10.  For every input that is not a base-16 numeral (an optional sign
    followed by at least one hexadecimal digit), for example the empty
    string or a string with a character that is no hex digit, the
    big-integer conversion reports failure and [GetTokenID] returns the nil
    [TokenID]; its result type has no error component, so the failure flag
    is dropped. *)
Theorem GetTokenID_invalid_is_nil (token : string) :
  valid_hex_numeral token = false ->
  SetString token 16 = (None, false) /\ GetTokenID token = None.
Proof.
  intros H. pose proof (SetString_invalid token H) as E.
  split; [exact E|]. unfold GetTokenID. by rewrite E.
Qed.

Lemma GetTokenID_invalid_is_nil_witness :
  valid_hex_numeral "not hex" = false /\
  (SetString "not hex" 16 = (None, false) /\ GetTokenID "not hex" = None).
Proof.
  split; [reflexivity | apply (GetTokenID_invalid_is_nil "not hex"); reflexivity].
Defined.

(* ===================================================================== *)
(** * Properties: one round trip *)
(* ===================================================================== *)

Section RoundTrip.

Context (R : Runtime).

Ltac run_do :=
  unfold do, bind, lift, try, now, fail, pure, Client_Do, NewRequestWithContext,
    Header_Set, post_request, after_round_trip, MethodPost; simpl.

(** Encoding fails: nothing is sent. *)
Lemma do_marshal_error (c : client) (ctx : Context) (reqURL : string) (params : X)
    (e : error) (w : World) :
  json_Marshal R params = Err e ->
  do R c ctx reqURL params w = (Err e, w).
Proof. intros H. run_do. by rewrite H. Qed.

(** The URL does not parse: nothing is sent. *)
Lemma do_url_error (c : client) (ctx : Context) (reqURL : string) (params : X)
    (body : list byte) (e : error) (w : World) :
  json_Marshal R params = Ok body ->
  url_Parse R reqURL = Some e ->
  do R c ctx reqURL params w = (Err e, w).
Proof. intros H1 H2. run_do. rewrite H1; simpl. by rewrite H2. Qed.

(** The transport fails: its error is returned unless the context is done
    at that moment, in which case [ctx.Err()] replaces it. *)
Lemma do_transport_error (c : client) (ctx : Context) (reqURL : string) (params : X)
    (body : list byte) (err : error) (w : World) :
  json_Marshal R params = Ok body ->
  url_Parse R reqURL = None ->
  cli c (instant w) (post_request ctx reqURL body) = Err err ->
  do R c ctx reqURL params w
  = (Err (if Done ctx (S (instant w)) then ctx_Err ctx else err),
     after_round_trip w (post_request ctx reqURL body)).
Proof.
  intros H1 H2 H3. unfold post_request, MethodPost in H3. run_do.
  rewrite H1; simpl. rewrite H2; simpl. by rewrite H3.
Qed.

(** The body cannot be read. *)
Lemma do_read_error (c : client) (ctx : Context) (reqURL : string) (params : X)
    (body : list byte) (resp : Response) (e : error) (w : World) :
  json_Marshal R params = Ok body ->
  url_Parse R reqURL = None ->
  cli c (instant w) (post_request ctx reqURL body) = Ok resp ->
  RespBody resp = Err e ->
  do R c ctx reqURL params w
  = (Err e, after_round_trip w (post_request ctx reqURL body)).
Proof.
  intros H1 H2 H3 H4. unfold post_request, MethodPost in H3. run_do.
  rewrite H1; simpl. rewrite H2; simpl. rewrite H3; simpl. by rewrite H4.
Qed.

(** A response arrived and was read: the envelope decides. *)
Lemma do_response (c : client) (ctx : Context) (reqURL : string) (params : X)
    (body : list byte) (resp : Response) (b : list byte) (w : World) :
  json_Marshal R params = Ok body ->
  url_Parse R reqURL = None ->
  cli c (instant w) (post_request ctx reqURL body) = Ok resp ->
  RespBody resp = Ok b ->
  do R c ctx reqURL params w
  = (let ret := gjson_ParseBytes R b in
     if negb (Bool (Get ret "success")) then
       Err (Errorf_antchain (String_ R (Get ret "code")) (String_ R (Get ret "data")))
     else Ok (String_ R (Get ret "data")),
     after_round_trip w (post_request ctx reqURL body)).
Proof.
  intros H1 H2 H3 H4. unfold post_request, MethodPost in H3. run_do.
  rewrite H1; simpl. rewrite H2; simpl. rewrite H3; simpl. rewrite H4; simpl.
  by destruct (negb (Bool (Get (gjson_ParseBytes R b) "success"))).
Qed.

(** [do] puts at most one request on the wire, and only moves time
    forward. *)
Lemma do_wire (c : client) (ctx : Context) (reqURL : string) (params : X) (w : World) :
  let w' := snd (do R c ctx reqURL params w) in
  (w' = w \/
   exists body, json_Marshal R params = Ok body /\
                w' = after_round_trip w (post_request ctx reqURL body)).
Proof.
  destruct (json_Marshal R params) as [body|e] eqn:H1.
  2:{ left. by rewrite (do_marshal_error _ _ _ _ _ _ H1). }
  destruct (url_Parse R reqURL) as [e|] eqn:H2.
  { left. by rewrite (do_url_error _ _ _ _ _ _ _ H1 H2). }
  right. exists body. split; [done|].
  destruct (cli c (instant w) (post_request ctx reqURL body)) as [resp|err] eqn:H3.
  2:{ by rewrite (do_transport_error _ _ _ _ _ _ _ H1 H2 H3). }
  destruct (RespBody resp) as [b|e] eqn:H4.
  - by rewrite (do_response _ _ _ _ _ _ _ _ H1 H2 H3 H4).
  - by rewrite (do_read_error _ _ _ _ _ _ _ _ H1 H2 H3 H4).
Qed.

(** Once the request can be built, exactly that request goes on the wire,
    whatever the transport answers. *)
Lemma do_sends (c : client) (ctx : Context) (reqURL : string) (params : X)
    (body : list byte) (w : World) :
  json_Marshal R params = Ok body ->
  url_Parse R reqURL = None ->
  snd (do R c ctx reqURL params w) = after_round_trip w (post_request ctx reqURL body).
Proof.
  intros H1 H2.
  destruct (cli c (instant w) (post_request ctx reqURL body)) as [resp|err] eqn:H3.
  2:{ by rewrite (do_transport_error _ _ _ _ _ _ _ H1 H2 H3). }
  destruct (RespBody resp) as [b|e] eqn:H4.
  - by rewrite (do_response _ _ _ _ _ _ _ _ H1 H2 H3 H4).
  - by rewrite (do_read_error _ _ _ _ _ _ _ _ H1 H2 H3 H4).
Qed.

End RoundTrip.

(* ===================================================================== *)
(** * Properties: handshake and calls *)
(* ===================================================================== *)

Section Calls.

Context (R : Runtime).

Lemma Sign_run (pk : PrivateKey) (hash : Hash) (data : list byte) (w : World) :
  Sign R pk hash data w
  = if Available R hash
    then (SignPKCS1v15 R (instant w) (pk_key pk) hash (Hash_Sum R hash data), tick w)
    else (Err (Errorf_unavailable (Hash_String R hash)), w).
Proof. unfold Sign. by destruct (Available R hash). Qed.

(** The handshake reads the clock, signs, and hands over to [do]. *)
Lemma shakehand_run (c : client) (ctx : Context) (w : World) :
  shakehand R c ctx w
  = let timeStr := FormatInt (clock R (instant w)) in
    match Sign R (key c) SHA256
            (list_byte_of_string (AccessID (cfg c) +:+ timeStr)) (tick w) with
    | (Ok sign, w1) =>
        do R c ctx (Endpoint (cfg c) +:+ SHAKE_HAND)
          (shakehand_params (AccessID (cfg c)) timeStr sign) w1
    | (Err e, w1) => (Err e, w1)
    end.
Proof. reflexivity. Qed.

Lemma chainCall_run (c : client) (ctx : Context) (method : string)
    (options : list ChainCallOption) (w : World) :
  chainCall R c ctx method options w
  = match shakehand R c ctx w with
    | (Ok token, w1) =>
        do R c ctx (Endpoint (cfg c) +:+ CHAIN_CALL)
          (chainCall_params c method token options) w1
    | (Err e, w1) => (Err e, w1)
    end.
Proof. reflexivity. Qed.

Lemma chainCallForBiz_run (c : client) (ctx : Context) (method : string)
    (options : list ChainCallOption) (w : World) :
  chainCallForBiz R c ctx method options w
  = match shakehand R c ctx w with
    | (Ok token, w1) =>
        do R c ctx (Endpoint (cfg c) +:+ CHAIN_CALL_FOR_BIZ)
          (chainCallForBiz_params c method token options
             (stamp_v4 (drawn R (instant w1))))
          (tick w1)
    | (Err e, w1) => (Err e, w1)
    end.
Proof.
  unfold chainCallForBiz, bind. destruct (shakehand R c ctx w) as [[token|e] w1];
    reflexivity.
Qed.

Lemma shakehand_params_dom (accessID timeStr : string) (sign : list byte) :
  dom (shakehand_params accessID timeStr sign)
  = ({[ "accessId"; "time"; "secret" ]} : gset string).
Proof.
  unfold shakehand_params. rewrite !dom_insert_L, dom_singleton_L. set_solver.
Qed.

(** C1.  The handshake is a function of the clock reading: with
    [timeStr] the decimal text of the millisecond clock, it signs the bytes
    of [AccessID ++ timeStr] (no separator) under SHA-256, builds the
    mapping with exactly the keys accessId, time and secret (the lower-case
    hex of the signature), and posts the encoding of that mapping to
    [Endpoint ++ "/api/contract/shakeHand"]: this is the one request the
    handshake puts on the wire. *)
Theorem shakehand_builds_request (c : client) (ctx : Context) (w : World)
    (sign body : list byte) :
  let timeStr := FormatInt (clock R (instant w)) in
  let params : X :=
    {[ "accessId" := VString (AccessID (cfg c));
       "time" := VString timeStr;
       "secret" := VString (hex_EncodeToString sign) ]} in
  let reqURL := Endpoint (cfg c) +:+ "/api/contract/shakeHand" in
  Available R SHA256 = true ->
  SignPKCS1v15 R (S (instant w)) (pk_key (key c)) SHA256
    (Hash_Sum R SHA256 (list_byte_of_string (AccessID (cfg c) +:+ timeStr)))
  = Ok sign ->
  json_Marshal R params = Ok body ->
  url_Parse R reqURL = None ->
  shakehand R c ctx w = do R c ctx reqURL params (tick (tick w)) /\
  dom params = ({[ "accessId"; "time"; "secret" ]} : gset string) /\
  wire (snd (shakehand R c ctx w)) = (wire w ++ [post_request ctx reqURL body])%list.
Proof.
  intros timeStr params reqURL Hav Hsign Hbody Hurl.
  assert (Hrun : shakehand R c ctx w = do R c ctx reqURL params (tick (tick w))).
  { rewrite shakehand_run. cbv zeta. rewrite Sign_run, Hav. simpl.
    fold timeStr. by rewrite Hsign. }
  split; [exact Hrun|]. split; [apply shakehand_params_dom|].
  rewrite Hrun, (do_sends R _ _ _ _ _ _ Hbody Hurl). reflexivity.
Qed.

End Calls.

Lemma shakehand_builds_request_witness :
  shakehand demo_runtime (demo_client body_deadbeef) Background w0
  = do demo_runtime (demo_client body_deadbeef) Background
       (Endpoint demo_config +:+ "/api/contract/shakeHand")
       {[ "accessId" := VString "access";
          "time" := VString "1700000000000";
          "secret" := VString (hex_EncodeToString demo_sign) ]}
       (tick (tick w0)) /\
  dom ({[ "accessId" := VString "access";
          "time" := VString "1700000000000";
          "secret" := VString (hex_EncodeToString demo_sign) ]} : X)
  = ({[ "accessId"; "time"; "secret" ]} : gset string) /\
  wire (snd (shakehand demo_runtime (demo_client body_deadbeef) Background w0))
  = [post_request Background (Endpoint demo_config +:+ "/api/contract/shakeHand") []].
Proof.
  apply (shakehand_builds_request demo_runtime (demo_client body_deadbeef)
           Background w0 demo_sign []); reflexivity.
Defined.

(* ===================================================================== *)
(** * Properties: parameter assembly *)
(* ===================================================================== *)

Section Assembly.

Implicit Types (c : client) (options : list ChainCallOption) (m : X).

Ltac protocol_key :=
  unfold chainCall_params, chainCallForBiz_params; cbv zeta;
  repeat (rewrite lookup_insert_ne by done); apply lookup_insert_eq.

Lemma apply_options_cons (f : ChainCallOption) options m :
  apply_options (f :: options) m = apply_options options (f m).
Proof. reflexivity. Qed.

Lemma apply_options_app (o1 o2 : list ChainCallOption) m :
  apply_options (o1 ++ o2)%list m = apply_options o2 (apply_options o1 m).
Proof. unfold apply_options. apply fold_left_app. Qed.

(** What a run of [WithParam] options leaves under a key: the value of the
    last option naming it, or what was there before. *)
Lemma apply_injectors (kvs : list (string * any)) m (k : string) :
  apply_options (injectors kvs) m !! k
  = match last_value k kvs with
    | Some v => Some v
    | None => m !! k
    end.
Proof.
  revert m. induction kvs as [|[k' v] rest IH]; intros m; [reflexivity|].
  simpl injectors. rewrite apply_options_cons, IH. simpl last_value.
  destruct (last_value k rest) as [v'|]; [reflexivity|].
  unfold WithParam. destruct (String.eqb_spec k' k) as [->|Hne].
  - apply lookup_insert_eq.
  - by apply lookup_insert_ne.
Qed.

Lemma last_value_app (k : string) (l1 l2 : list (string * any)) :
  last_value k (l1 ++ l2)%list
  = match last_value k l2 with
    | Some v => Some v
    | None => last_value k l1
    end.
Proof.
  induction l1 as [|[k' v] l1 IH]; simpl.
  - by destruct (last_value k l2).
  - rewrite IH. by destruct (last_value k l2).
Qed.

Lemma last_value_absent (k : string) (l : list (string * any)) :
  k ∉ map fst l -> last_value k l = None.
Proof.
  induction l as [|[k' v] l IH]; simpl; [done|].
  intros H. apply not_elem_of_cons in H as [Hne H]. rewrite (IH H).
  destruct (String.eqb_spec k' k); [congruence|done].
Qed.

Lemma last_value_twice (k : string) (v1 v2 : any) (pre mid post : list (string * any)) :
  k ∉ map fst post ->
  last_value k (pre ++ (k, v1) :: mid ++ (k, v2) :: post)%list = Some v2.
Proof.
  intros H. rewrite last_value_app. simpl. rewrite last_value_app. simpl.
  rewrite (last_value_absent _ _ H), String.eqb_refl. reflexivity.
Qed.

(** The assemblers leave every key they do not write as the options left
    it. *)
Lemma chainCall_params_other c (method token : string) options (k : string) :
  k ∉ chainCall_keys ->
  chainCall_params c method token options !! k = apply_options options ∅ !! k.
Proof.
  unfold chainCall_keys. intros H. rewrite !not_elem_of_cons in H.
  destruct H as (? & ? & ? & ? & _).
  unfold chainCall_params; cbv zeta. by rewrite !lookup_insert_ne.
Qed.

Lemma chainCallForBiz_params_other c (method token : string) options (id : UUID)
    (k : string) :
  k ∉ chainCallForBiz_keys ->
  chainCallForBiz_params c method token options id !! k = apply_options options ∅ !! k.
Proof.
  unfold chainCallForBiz_keys. intros H. rewrite !not_elem_of_cons in H.
  destruct H as (? & ? & ? & ? & ? & ? & ? & ? & _).
  unfold chainCallForBiz_params; cbv zeta. by rewrite !lookup_insert_ne.
Qed.

(** C6.  Options are applied in the order given, so when two injectors
    set the same key and no later one sets it again, the mapping the option
    loop produces holds the later value; the same holds in the parameters
    finally assembled by [chainCall] and [chainCallForBiz] for every key the
    assembler does not write itself. *)
Theorem later_injector_wins c (method token : string) (id : UUID)
    (pre mid post : list (string * any)) (k : string) (v1 v2 : any) :
  k ∉ map fst post ->
  apply_options (injectors (pre ++ (k, v1) :: mid ++ (k, v2) :: post)%list) ∅ !! k
  = Some v2 /\
  (k ∉ chainCall_keys ->
   chainCall_params c method token
     (injectors (pre ++ (k, v1) :: mid ++ (k, v2) :: post)%list) !! k = Some v2) /\
  (k ∉ chainCallForBiz_keys ->
   chainCallForBiz_params c method token
     (injectors (pre ++ (k, v1) :: mid ++ (k, v2) :: post)%list) id !! k = Some v2).
Proof.
  intros H.
  assert (E : apply_options
                (injectors (pre ++ (k, v1) :: mid ++ (k, v2) :: post)%list) ∅ !! k
              = Some v2).
  { by rewrite apply_injectors, (last_value_twice _ _ _ _ _ _ H). }
  split; [exact E|]. split; intros Hk.
  - by rewrite chainCall_params_other.
  - by rewrite chainCallForBiz_params_other.
Qed.

Lemma later_injector_wins_witness :
  apply_options
    (injectors ([("gas", VInt 1)] ++ ("content", VString "old")
                  :: [("gas", VInt 2)] ++ ("content", VString "new")
                  :: [("gas", VInt 3)])%list) ∅ !! "content"
  = Some (VString "new") /\
  ("content" ∉ chainCall_keys ->
   chainCall_params (demo_client body_deadbeef) "DEPOSIT" "tok"
     (injectors ([("gas", VInt 1)] ++ ("content", VString "old")
                   :: [("gas", VInt 2)] ++ ("content", VString "new")
                   :: [("gas", VInt 3)])%list) !! "content"
   = Some (VString "new")) /\
  ("content" ∉ chainCallForBiz_keys ->
   chainCallForBiz_params (demo_client body_deadbeef) "DEPOSIT" "tok"
     (injectors ([("gas", VInt 1)] ++ ("content", VString "old")
                   :: [("gas", VInt 2)] ++ ("content", VString "new")
                   :: [("gas", VInt 3)])%list) (drawn demo_runtime 0) !! "content"
   = Some (VString "new")).
Proof.
  apply (later_injector_wins (demo_client body_deadbeef) "DEPOSIT" "tok"
           (drawn demo_runtime 0) [("gas", VInt 1)] [("gas", VInt 2)]
           [("gas", VInt 3)] "content" (VString "old") (VString "new")).
  simpl. rewrite not_elem_of_cons. split; [discriminate | apply not_elem_of_nil].
Defined.

(** C9.  Whatever the caller's options do to the map, the assignments
    after the option loop decide the protocol's own keys: bizid, accessId,
    method and token in [chainCall], and in [chainCallForBiz] also orderId,
    account, mykmsKeyId and tenantid. *)
Theorem protocol_fields_override c (method token : string) options (id : UUID) :
  (chainCall_params c method token options !! "bizid" = Some (VString (BizID (cfg c))) /\
   chainCall_params c method token options !! "accessId"
   = Some (VString (AccessID (cfg c))) /\
   chainCall_params c method token options !! "method" = Some (VString method) /\
   chainCall_params c method token options !! "token" = Some (VString token)) /\
  (chainCallForBiz_params c method token options id !! "orderId"
   = Some (VString (UUID_String id)) /\
   chainCallForBiz_params c method token options id !! "bizid"
   = Some (VString (BizID (cfg c))) /\
   chainCallForBiz_params c method token options id !! "account"
   = Some (VString (Account (cfg c))) /\
   chainCallForBiz_params c method token options id !! "mykmsKeyId"
   = Some (VString (MyKmsKeyID (cfg c))) /\
   chainCallForBiz_params c method token options id !! "method"
   = Some (VString method) /\
   chainCallForBiz_params c method token options id !! "accessId"
   = Some (VString (AccessID (cfg c))) /\
   chainCallForBiz_params c method token options id !! "tenantid"
   = Some (VString (TenantID (cfg c))) /\
   chainCallForBiz_params c method token options id !! "token"
   = Some (VString token)).
Proof. repeat split; protocol_key. Qed.

(** An option overwriting a protocol key loses. *)
Example protocol_fields_override_token :
  chainCall_params (demo_client body_deadbeef) "DEPOSIT" "fresh"
    [WithParam "token" (VString "stale"); WithParam "method" (VInt 7)] !! "token"
  = Some (VString "fresh").
Proof. reflexivity. Qed.



End Assembly.

(* ===================================================================== *)
(** * Properties: order identifiers *)
(* ===================================================================== *)



Lemma hex_EncodeToString_length (src : list byte) :
  String.length (hex_EncodeToString src) = (2 * length src)%nat.
Proof.
  induction src as [|b src IH]; [reflexivity|].
  change (hex_EncodeToString (b :: src))
    with (String (hexdigit (N.shiftr (Byte.to_N b) 4))
            (String (hexdigit (N.land (Byte.to_N b) 15)) (hex_EncodeToString src))).
  cbn [String.length length]. rewrite IH. lia.
Qed.









(* ===================================================================== *)
(** * Properties: tokens and business-scoped requests *)
(* ===================================================================== *)

Section Tokens.

Context (R : Runtime).




(** A handshake sends at most one request, a call at most two. *)
Lemma shakehand_wire (c : client) (ctx : Context) (w : World) :
  (length (wire (snd (shakehand R c ctx w))) <= length (wire w) + 1)%nat.
Proof.
  rewrite shakehand_run. cbv zeta. rewrite Sign_run.
  destruct (Available R SHA256); [|simpl; lia].
  destruct (SignPKCS1v15 _ _ _ _ _) as [sign|e]; [|simpl; lia].
  match goal with |- context [do R c ctx ?u ?p ?w'] =>
    destruct (do_wire R c ctx u p w') as [E | (body & _ & E)]; rewrite E
  end; simpl; rewrite ?length_app; simpl; lia.
Qed.

Lemma chainCall_wire (c : client) (ctx : Context) (method : string)
    (options : list ChainCallOption) (w : World) :
  (length (wire (snd (chainCall R c ctx method options w))) <= length (wire w) + 2)%nat.
Proof.
  rewrite chainCall_run. pose proof (shakehand_wire c ctx w) as H.
  destruct (shakehand R c ctx w) as [[token|e] w1]; simpl in *; [|lia].
  match goal with |- context [do R c ctx ?u ?p ?w'] =>
    destruct (do_wire R c ctx u p w') as [E | (body & _ & E)]; rewrite E
  end; simpl; rewrite ?length_app; simpl; lia.
Qed.


End Tokens.


(** Two calls in a row against a server that rotates its tokens: each
    business request carries the token of its own handshake. *)
Example tokens_not_reused :
  map ReqBody
    (wire (snd (bind (chainCall rotating_runtime rotating_client Background "A" [])
                  (fun _ => chainCall rotating_runtime rotating_client Background "B" [])
                  w0)))
  = [ []; list_byte_of_string "2"; []; list_byte_of_string "6" ].
Proof. reflexivity. Qed.

(* ===================================================================== *)
(** * Properties: the response envelope *)
(* ===================================================================== *)

Lemma append_nil_r (s : string) : s +:+ EmptyString = s.
Proof.
  induction s as [|a s IH]; [done|].
  change (String a (s +:+ EmptyString) = String a s). by rewrite IH.
Qed.

Lemma append_assoc (a b c : string) : (a +:+ b) +:+ c = a +:+ b +:+ c.
Proof.
  induction a as [|x a IH]; [done|].
  change (String x ((a +:+ b) +:+ c) = String x (a +:+ b +:+ c)). by rewrite IH.
Qed.

Lemma Contains_middle (pre sub post : string) : Contains (pre +:+ sub +:+ post) sub.
Proof. by exists pre, post. Qed.

Lemma Contains_end (pre sub : string) : Contains (pre +:+ sub) sub.
Proof. exists pre, EmptyString. by rewrite append_nil_r. Qed.

(** The message of the error built for a failed envelope shows the code
    and the data. *)
Lemma Errorf_antchain_shows (code data : string) :
  Contains (Error (Errorf_antchain code data)) code /\
  Contains (Error (Errorf_antchain code data)) data.
Proof.
  unfold Errorf_antchain, Error. split.
  - apply Contains_middle.
  - rewrite <- !append_assoc. apply Contains_end.
Qed.

Lemma Get_absent (key : string) (t : Result) :
  has_member key t = false -> Get t key = Absent.
Proof.
  destruct t as [| | | | | |raw members|]; try reflexivity. simpl.
  induction members as [|[k v] rest IH]; simpl; [done|].
  destruct (String.eqb k key); [discriminate|exact IH].
Qed.

Section Envelope.

Context (R : Runtime).

Implicit Types (c : client) (ctx : Context) (w : World) (b : list byte).

Lemma do_answered c ctx (reqURL : string) (params : X) w b :
  answered R c ctx reqURL params w b ->
  fst (do R c ctx reqURL params w) = envelope_result R b.
Proof.
  intros (body & resp & H1 & H2 & H3 & H4).
  by rewrite (do_response R _ _ _ _ _ _ _ _ H1 H2 H3 H4).
Qed.

Lemma shakehand_answered c ctx w b :
  handshake_answered R c ctx w b ->
  fst (shakehand R c ctx w) = envelope_result R b.
Proof.
  intros (sign & [Hav Hsign] & Hans).
  rewrite shakehand_run. cbv zeta. rewrite Sign_run, Hav. simpl. rewrite Hsign.
  by apply do_answered.
Qed.

Lemma chainCall_business_answered c ctx (method : string)
    (options : list ChainCallOption) w b :
  chainCall_answered R c ctx method options w b ->
  fst (chainCall R c ctx method options w) = envelope_result R b.
Proof.
  intros (token & w1 & Hs & Hans). rewrite chainCall_run, Hs. by apply do_answered.
Qed.

Lemma chainCallForBiz_business_answered c ctx (method : string)
    (options : list ChainCallOption) w b :
  chainCallForBiz_answered R c ctx method options w b ->
  fst (chainCallForBiz R c ctx method options w) = envelope_result R b.
Proof.
  intros (token & w1 & Hs & Hans). rewrite chainCallForBiz_run, Hs.
  by apply do_answered.
Qed.

(** A handshake that does not return a payload ends the call with the
    handshake's own result. *)
Lemma call_handshake_error c ctx (method : string) (options : list ChainCallOption)
    w (e : error) :
  fst (shakehand R c ctx w) = Err e ->
  fst (chainCall R c ctx method options w) = Err e /\
  fst (chainCallForBiz R c ctx method options w) = Err e.
Proof.
  intros H. rewrite chainCall_run, chainCallForBiz_run.
  destruct (shakehand R c ctx w) as [[token|e'] w1]; simpl in *; [discriminate|].
  by inversion H.
Qed.

Lemma envelope_failure b :
  Bool (Get (gjson_ParseBytes R b) "success") = false ->
  RemoteFailure (envelope_result R b)
    (String_ R (Get (gjson_ParseBytes R b) "code"))
    (String_ R (Get (gjson_ParseBytes R b) "data")).
Proof.
  intros H. unfold envelope_result. cbv zeta. rewrite H. simpl.
  split; [discriminate|]. eexists. split; [reflexivity|].
  apply Errorf_antchain_shows.
Qed.

Lemma envelope_success b :
  Bool (Get (gjson_ParseBytes R b) "success") = true ->
  envelope_result R b = Ok (String_ R (Get (gjson_ParseBytes R b) "data")).
Proof. intros H. unfold envelope_result. cbv zeta. by rewrite H. Qed.

(** C4.  When the envelope that answers an operation has a false success
    flag, the operation returns an error whose message contains the
    envelope's code text and its data text, and does not return the data as
    a payload.  This holds for [do], for the handshake, and for both call
    shapes, whether the failed envelope answers their handshake or their
    business request. *)
Theorem failed_envelope_is_an_error c ctx w b :
  Bool (Get (gjson_ParseBytes R b) "success") = false ->
  (forall (reqURL : string) (params : X),
     answered R c ctx reqURL params w b ->
     RemoteFailure (fst (do R c ctx reqURL params w))
       (String_ R (Get (gjson_ParseBytes R b) "code"))
       (String_ R (Get (gjson_ParseBytes R b) "data"))) /\
  (handshake_answered R c ctx w b ->
   RemoteFailure (fst (shakehand R c ctx w))
     (String_ R (Get (gjson_ParseBytes R b) "code"))
     (String_ R (Get (gjson_ParseBytes R b) "data"))) /\
  (forall (method : string) (options : list ChainCallOption),
     handshake_answered R c ctx w b \/ chainCall_answered R c ctx method options w b ->
     RemoteFailure (fst (chainCall R c ctx method options w))
       (String_ R (Get (gjson_ParseBytes R b) "code"))
       (String_ R (Get (gjson_ParseBytes R b) "data"))) /\
  (forall (method : string) (options : list ChainCallOption),
     handshake_answered R c ctx w b \/
     chainCallForBiz_answered R c ctx method options w b ->
     RemoteFailure (fst (chainCallForBiz R c ctx method options w))
       (String_ R (Get (gjson_ParseBytes R b) "code"))
       (String_ R (Get (gjson_ParseBytes R b) "data"))).
Proof.
  intros Hfalse. pose proof (envelope_failure b Hfalse) as Hfail.
  assert (Hhs : handshake_answered R c ctx w b ->
                forall method options,
                  fst (chainCall R c ctx method options w) = envelope_result R b /\
                  fst (chainCallForBiz R c ctx method options w) = envelope_result R b).
  { intros Hans method options. pose proof (shakehand_answered c ctx w b Hans) as E.
    destruct Hfail as [_ (e & He & _)]. rewrite He in E |- *.
    by apply call_handshake_error. }
  split; [|split; [|split]].
  - intros reqURL params Hans. by rewrite (do_answered _ _ _ _ _ _ Hans).
  - intros Hans. by rewrite (shakehand_answered _ _ _ _ Hans).
  - intros method options [Hans|Hans].
    + by rewrite (proj1 (Hhs Hans method options)).
    + by rewrite (chainCall_business_answered _ _ _ _ _ _ Hans).
  - intros method options [Hans|Hans].
    + by rewrite (proj2 (Hhs Hans method options)).
    + by rewrite (chainCallForBiz_business_answered _ _ _ _ _ _ Hans).
Qed.

(** C5.  When the envelope that answers an operation has a true success
    flag, the operation returns the text of the data field as it is, and no
    error: for [do], for the handshake (the token), and for the business
    request of both call shapes. *)
Theorem successful_envelope_is_the_payload c ctx w b :
  Bool (Get (gjson_ParseBytes R b) "success") = true ->
  (forall (reqURL : string) (params : X),
     answered R c ctx reqURL params w b ->
     fst (do R c ctx reqURL params w)
     = Ok (String_ R (Get (gjson_ParseBytes R b) "data"))) /\
  (handshake_answered R c ctx w b ->
   fst (shakehand R c ctx w) = Ok (String_ R (Get (gjson_ParseBytes R b) "data"))) /\
  (forall (method : string) (options : list ChainCallOption),
     chainCall_answered R c ctx method options w b ->
     fst (chainCall R c ctx method options w)
     = Ok (String_ R (Get (gjson_ParseBytes R b) "data"))) /\
  (forall (method : string) (options : list ChainCallOption),
     chainCallForBiz_answered R c ctx method options w b ->
     fst (chainCallForBiz R c ctx method options w)
     = Ok (String_ R (Get (gjson_ParseBytes R b) "data"))).
Proof.
  intros Htrue. pose proof (envelope_success b Htrue) as E.
  split; [|split; [|split]].
  - intros reqURL params Hans. by rewrite (do_answered _ _ _ _ _ _ Hans).
  - intros Hans. by rewrite (shakehand_answered _ _ _ _ Hans).
  - intros method options Hans.
    by rewrite (chainCall_business_answered _ _ _ _ _ _ Hans).
  - intros method options Hans.
    by rewrite (chainCallForBiz_business_answered _ _ _ _ _ _ Hans).
Qed.

(** C8.  Reading the envelope: a document without a success member has
    a false success flag, one without a code member has the empty code, and
    a data member that is an object or a number is read as its text (the raw
    text of the object; the numeral as written when it is a plain integer,
    its shortest decimal form otherwise).  So a body without a success
    member makes [do] fail with the envelope error, and a successful body
    whose data is an object or a number makes it return that text. *)
Theorem envelope_defaults (ret : Result) :
  (has_member "success" ret = false -> Bool (Get ret "success") = false) /\
  (has_member "code" ret = false -> String_ R (Get ret "code") = EmptyString) /\
  (forall raw members,
     Get ret "data" = JObject raw members -> String_ R (Get ret "data") = raw) /\
  (forall raw num,
     Get ret "data" = JNumber raw num ->
     String_ R (Get ret "data") = if plain_integer raw then raw else FormatFloat R num) /\
  (forall c ctx (reqURL : string) (params : X) w b,
     gjson_ParseBytes R b = ret ->
     answered R c ctx reqURL params w b ->
     (has_member "success" ret = false ->
      fst (do R c ctx reqURL params w)
      = Err (Errorf_antchain (String_ R (Get ret "code")) (String_ R (Get ret "data")))) /\
     (Bool (Get ret "success") = true ->
      fst (do R c ctx reqURL params w) = Ok (String_ R (Get ret "data")))).
Proof.
  split; [|split; [|split; [|split]]].
  - intros H. by rewrite (Get_absent _ _ H).
  - intros H. by rewrite (Get_absent _ _ H).
  - intros raw members H. by rewrite H.
  - intros raw num H. by rewrite H.
  - intros c ctx reqURL params w b Hret Hans.
    rewrite (do_answered _ _ _ _ _ _ Hans). unfold envelope_result. cbv zeta.
    rewrite Hret. split; intros H.
    + by rewrite (Get_absent _ _ H).
    + by rewrite H.
Qed.

End Envelope.

Lemma failed_envelope_is_an_error_witness :
  RemoteFailure
    (fst (chainCall demo_runtime (demo_client2 body_deadbeef body_E1) Background
            "QUERYACCOUNT" [] w0))
    "E1" "boom".
Proof.
  pose proof (failed_envelope_is_an_error demo_runtime
                (demo_client2 body_deadbeef body_E1) Background w0 body_E1 eq_refl)
    as (_ & _ & H & _).
  apply (H "QUERYACCOUNT" []).
  right. exists "deadbeef", demo_w1. split; [vm_compute; reflexivity|].
  exists (list_byte_of_string "deadbeef"),
    {| StatusCode := 200; RespBody := Ok body_E1 |}.
  repeat split; vm_compute; reflexivity.
Defined.

Lemma successful_envelope_is_the_payload_witness :
  fst (do demo_runtime (demo_client body_deadbeef) Background
         (Endpoint demo_config +:+ CHAIN_CALL) ∅ w0)
  = Ok "deadbeef".
Proof.
  pose proof (successful_envelope_is_the_payload demo_runtime
                (demo_client body_deadbeef) Background w0 body_deadbeef eq_refl)
    as (H & _).
  apply (H (Endpoint demo_config +:+ CHAIN_CALL) ∅).
  exists [], {| StatusCode := 200; RespBody := Ok body_deadbeef |}.
  repeat split; vm_compute; reflexivity.
Defined.

Lemma envelope_defaults_witness :
  fst (do demo_runtime (demo_client body_nosuccess) Background
         (Endpoint demo_config +:+ CHAIN_CALL) ∅ w0)
  = Err (Errorf_antchain EmptyString "deadbeef").
Proof.
  pose proof (envelope_defaults demo_runtime doc_nosuccess) as (_ & _ & _ & _ & H).
  apply (H (demo_client body_nosuccess) Background
           (Endpoint demo_config +:+ CHAIN_CALL) ∅ w0 body_nosuccess).
  - vm_compute; reflexivity.
  - exists [], {| StatusCode := 200; RespBody := Ok body_nosuccess |}.
    repeat split; vm_compute; reflexivity.
  - vm_compute; reflexivity.
Defined.

(* ===================================================================== *)
(** * Properties: cancellation *)
(* ===================================================================== *)

Lemma Done_mono (ctx : Context) (t t' : nat) :
  Done ctx t = true -> (t <= t')%nat -> Done ctx t' = true.
Proof.
  destruct ctx as [|t0 why]; simpl; [done|].
  intros H Hle. apply Nat.leb_le in H. apply Nat.leb_le. lia.
Qed.

Section Cancellation.

Context (R : Runtime).

Implicit Types (c : client) (ctx : Context) (w : World).

(** A failed round trip under a context that is done returns [ctx.Err()],
    whatever the transport reported. *)
Lemma do_cancelled c ctx (reqURL : string) (params : X) w (err : error) :
  sendable R reqURL params ->
  Done ctx (S (instant w)) = true ->
  (forall body, cli c (instant w) (post_request ctx reqURL body) = Err err \/
                HonoursCancellation (cli c)) ->
  fst (do R c ctx reqURL params w) = Err (ctx_Err ctx).
Proof.
  intros [[body H1] H2] Hdone Hfail.
  assert (exists e, cli c (instant w) (post_request ctx reqURL body) = Err e) as [e H3].
  { destruct (Hfail body) as [H|H]; [eauto|]. by apply H. }
  by rewrite (do_transport_error R _ _ _ _ _ _ _ H1 H2 H3), Hdone.
Qed.

(** C7.  Whenever the transport reports a failure for a round trip and
    the context is done by then, [do] returns the context's error in place
    of the transport's.  With a transport that honours cancellation, every
    round trip completing after the context was cancelled therefore ends the
    operation with the context's error: in [do], in the handshake, and in
    either leg of both call shapes. *)
Theorem cancellation_takes_precedence c ctx w :
  Done ctx (S (instant w)) = true ->
  (forall (reqURL : string) (params : X) (body : list byte) (err : error),
     json_Marshal R params = Ok body ->
     url_Parse R reqURL = None ->
     cli c (instant w) (post_request ctx reqURL body) = Err err ->
     do R c ctx reqURL params w
     = (Err (ctx_Err ctx), after_round_trip w (post_request ctx reqURL body))) /\
  (HonoursCancellation (cli c) ->
   (forall (reqURL : string) (params : X),
      sendable R reqURL params ->
      fst (do R c ctx reqURL params w) = Err (ctx_Err ctx)) /\
   (forall (w0 : World) (sign : list byte) (method : string)
           (options : list ChainCallOption),
      w = tick (tick w0) ->
      handshake_signs R c w0 sign ->
      sendable R (Endpoint (cfg c) +:+ SHAKE_HAND) (handshake_params R c w0 sign) ->
      fst (shakehand R c ctx w0) = Err (ctx_Err ctx) /\
      fst (chainCall R c ctx method options w0) = Err (ctx_Err ctx) /\
      fst (chainCallForBiz R c ctx method options w0) = Err (ctx_Err ctx)) /\
   (forall (w0 : World) (token method : string) (options : list ChainCallOption),
      shakehand R c ctx w0 = (Ok token, w) ->
      (sendable R (Endpoint (cfg c) +:+ CHAIN_CALL)
         (chainCall_params c method token options) ->
       fst (chainCall R c ctx method options w0) = Err (ctx_Err ctx)) /\
      (sendable R (Endpoint (cfg c) +:+ CHAIN_CALL_FOR_BIZ)
         (chainCallForBiz_params c method token options
            (stamp_v4 (drawn R (instant w)))) ->
       fst (chainCallForBiz R c ctx method options w0) = Err (ctx_Err ctx)))).
Proof.
  intros Hdone. split.
  { intros reqURL params body err H1 H2 H3.
    by rewrite (do_transport_error R _ _ _ _ _ _ _ H1 H2 H3), Hdone. }
  intros Hon. split; [|split].
  - intros reqURL params Hs. apply (do_cancelled c ctx reqURL params w Canceled); auto.
  - intros w0 sign method options -> [Hav Hsign] Hs.
    assert (E : fst (shakehand R c ctx w0) = Err (ctx_Err ctx)).
    { rewrite shakehand_run. cbv zeta. rewrite Sign_run, Hav. simpl. rewrite Hsign.
      apply (do_cancelled c ctx _ _ _ Canceled); auto. }
    split; [exact E|]. by apply call_handshake_error.
  - intros w0 token method options Hs. split; intros Hsend.
    + rewrite chainCall_run, Hs.
      apply (do_cancelled c ctx _ _ _ Canceled); auto.
    + rewrite chainCallForBiz_run, Hs.
      apply (do_cancelled c ctx _ _ _ Canceled); auto.
      apply (Done_mono ctx (S (instant w))); [done|simpl; lia].
Qed.

End Cancellation.

Lemma cancellation_takes_precedence_witness :
  do demo_runtime broken_client (DoneFrom 1 Canceled)
    (Endpoint demo_config +:+ CHAIN_CALL) ∅ w0
  = (Err Canceled,
     after_round_trip w0
       (post_request (DoneFrom 1 Canceled) (Endpoint demo_config +:+ CHAIN_CALL) [])).
Proof.
  pose proof (cancellation_takes_precedence demo_runtime broken_client
                (DoneFrom 1 Canceled) w0 eq_refl) as (H & _).
  apply (H (Endpoint demo_config +:+ CHAIN_CALL) ∅ []
           (Foreign "net/http" "connection reset")); vm_compute; reflexivity.
Defined.

(** Without cancellation the transport's own error comes back. *)
Example transport_error_verbatim :
  fst (chainCall demo_runtime broken_client Background "DEPOSIT" [] w0)
  = Err (Foreign "net/http" "connection reset").
Proof. vm_compute. reflexivity. Qed.

(** A deadline that passes between the two round trips of a call. *)
Example deadline_during_business_leg :
  fst (chainCall demo_runtime
         {| cli := fun t _ => if Nat.leb 3 t
                              then Err (Foreign "net/http" "timeout")
                              else respond body_deadbeef;
            cfg := demo_config; key := demo_key |}
         (DoneFrom 4 DeadlineExceeded) "DEPOSIT" [] w0)
  = Err DeadlineExceeded.
Proof. vm_compute. reflexivity. Qed.

(* ===================================================================== *)
(** * Further properties: what goes on the wire *)
(* ===================================================================== *)

Section Wire.

Context (R : Runtime).

Implicit Types (c : client) (ctx : Context) (w : World).

Lemma well_formed_post ctx (reqURL : string) (body : list byte) :
  well_formed ctx (post_request ctx reqURL body).
Proof. by repeat split. Qed.

Lemma sent_since_app w w' (new : list Request) :
  wire w' = (wire w ++ new)%list -> sent_since w w' = new.
Proof. intros H. unfold sent_since. rewrite H. by rewrite drop_app_length. Qed.

(** What [do] adds to the wire: nothing, or the one request it built. *)
Lemma do_sent c ctx (reqURL : string) (params : X) w :
  exists new : list Request,
    wire (snd (do R c ctx reqURL params w)) = (wire w ++ new)%list /\
    (length new <= 1)%nat /\
    Forall (fun req => well_formed ctx req /\ URL req = reqURL) new.
Proof.
  destruct (do_wire R c ctx reqURL params w) as [E | (body & _ & E)]; rewrite E.
  - exists []. rewrite app_nil_r. repeat split; [simpl; lia | constructor].
  - exists [post_request ctx reqURL body]. repeat split; [simpl; lia|].
    repeat constructor.
Qed.

Lemma shakehand_sent c ctx w :
  exists new : list Request,
    wire (snd (shakehand R c ctx w)) = (wire w ++ new)%list /\
    (length new <= 1)%nat /\
    Forall (fun req => well_formed ctx req /\
                       URL req = Endpoint (cfg c) +:+ SHAKE_HAND) new.
Proof.
  rewrite shakehand_run. cbv zeta. rewrite Sign_run.
  assert (Hnil : exists new : list Request,
            wire w = (wire w ++ new)%list /\ (length new <= 1)%nat /\
            Forall (fun req => well_formed ctx req /\
                               URL req = Endpoint (cfg c) +:+ SHAKE_HAND) new).
  { exists []. rewrite app_nil_r. repeat split; [simpl; lia | constructor]. }
  destruct (Available R SHA256); [|exact Hnil].
  destruct (SignPKCS1v15 _ _ _ _ _) as [sign|e]; [|exact Hnil].
  apply (do_sent c ctx _ _ (tick (tick w))).
Qed.

(** A successful [do] was sendable and made its round trip. *)
Lemma do_Ok_inv c ctx (reqURL : string) (params : X) w (payload : string) :
  fst (do R c ctx reqURL params w) = Ok payload ->
  exists body,
    json_Marshal R params = Ok body /\
    url_Parse R reqURL = None /\
    snd (do R c ctx reqURL params w) = after_round_trip w (post_request ctx reqURL body).
Proof.
  intros H.
  destruct (json_Marshal R params) as [body|e] eqn:H1.
  2:{ by rewrite (do_marshal_error R _ _ _ _ _ _ H1) in H. }
  destruct (url_Parse R reqURL) as [e|] eqn:H2.
  { by rewrite (do_url_error R _ _ _ _ _ _ _ H1 H2) in H. }
  exists body. repeat split. by apply do_sends.
Qed.

Lemma shakehand_Ok_inv c ctx w (token : string) (w1 : World) :
  shakehand R c ctx w = (Ok token, w1) ->
  exists body,
    wire w1 = (wire w ++ [post_request ctx (Endpoint (cfg c) +:+ SHAKE_HAND) body])%list.
Proof.
  rewrite shakehand_run. cbv zeta. rewrite Sign_run.
  destruct (Available R SHA256); [|discriminate].
  destruct (SignPKCS1v15 _ _ _ _ _) as [sign|e]; [|discriminate].
  intros H.
  match type of H with do R c ctx ?u ?p ?w' = _ =>
    destruct (do_Ok_inv c ctx u p w' token) as (body & _ & _ & E); [by rewrite H|]
  end.
  rewrite H in E. simpl in E. exists body. by rewrite E.
Qed.


(** X1.  When the parameters cannot be encoded, or the URL does not
    parse, [do] returns that error as it is and stops there: no request is
    handed to the transport and the world is left as it was. *)
Theorem unsendable_request_sends_nothing c ctx (reqURL : string) (params : X) w
    (e : error) :
  json_Marshal R params = Err e \/
  (exists body, json_Marshal R params = Ok body /\ url_Parse R reqURL = Some e) ->
  do R c ctx reqURL params w = (Err e, w).
Proof.
  intros [H | (body & H1 & H2)].
  - by apply do_marshal_error.
  - by apply (do_url_error R _ _ _ _ body).
Qed.

(** X2.  A transport failure is returned as the transport reported it
    whenever the context is not done at that moment (always so under the
    background context): by [do], and, when it strikes the handshake round
    trip, by the handshake and by both call shapes. *)
Theorem transport_error_is_returned_verbatim c ctx w (err : error) :
  Done ctx (S (instant w)) = false ->
  (forall (reqURL : string) (params : X) (body : list byte),
     json_Marshal R params = Ok body ->
     url_Parse R reqURL = None ->
     cli c (instant w) (post_request ctx reqURL body) = Err err ->
     fst (do R c ctx reqURL params w) = Err err) /\
  (forall (w0 : World) (sign body : list byte) (method : string)
          (options : list ChainCallOption),
     w = tick (tick w0) ->
     handshake_signs R c w0 sign ->
     json_Marshal R (handshake_params R c w0 sign) = Ok body ->
     url_Parse R (Endpoint (cfg c) +:+ SHAKE_HAND) = None ->
     cli c (instant w) (post_request ctx (Endpoint (cfg c) +:+ SHAKE_HAND) body)
     = Err err ->
     fst (shakehand R c ctx w0) = Err err /\
     fst (chainCall R c ctx method options w0) = Err err /\
     fst (chainCallForBiz R c ctx method options w0) = Err err).
Proof.
  intros Hdone.
  assert (Hdo : forall (reqURL : string) (params : X) (body : list byte),
            json_Marshal R params = Ok body ->
            url_Parse R reqURL = None ->
            cli c (instant w) (post_request ctx reqURL body) = Err err ->
            fst (do R c ctx reqURL params w) = Err err).
  { intros reqURL params body H1 H2 H3.
    by rewrite (do_transport_error R _ _ _ _ _ _ _ H1 H2 H3), Hdone. }
  split; [exact Hdo|].
  intros w0 sign body method options -> [Hav Hsign] H1 H2 H3.
  assert (E : fst (shakehand R c ctx w0) = Err err).
  { rewrite shakehand_run. cbv zeta. rewrite Sign_run, Hav. simpl. rewrite Hsign.
    by apply (Hdo _ _ body). }
  split; [exact E|]. by apply call_handshake_error.
Qed.

(** X3.  [do] never looks at the status code: two responses with the same
    body give the same result, whatever their status. *)
Theorem status_code_is_ignored (c1 c2 : client) ctx (reqURL : string) (params : X) w
    (body : list byte) (resp1 resp2 : Response) :
  json_Marshal R params = Ok body ->
  url_Parse R reqURL = None ->
  cli c1 (instant w) (post_request ctx reqURL body) = Ok resp1 ->
  cli c2 (instant w) (post_request ctx reqURL body) = Ok resp2 ->
  RespBody resp1 = RespBody resp2 ->
  do R c1 ctx reqURL params w = do R c2 ctx reqURL params w.
Proof.
  intros H1 H2 Hc1 Hc2 Hb.
  destruct (RespBody resp2) as [b|e] eqn:E.
  - by rewrite (do_response R _ _ _ _ _ _ _ _ H1 H2 Hc1 Hb),
               (do_response R _ _ _ _ _ _ _ _ H1 H2 Hc2 E).
  - by rewrite (do_read_error R _ _ _ _ _ _ _ _ H1 H2 Hc1 Hb),
               (do_read_error R _ _ _ _ _ _ _ _ H1 H2 Hc2 E).
Qed.

(** X4.  The wire only grows.  A handshake adds at most one request, a
    call of either shape at most two, and every request added is a POST
    with the single header Content-Type: application/json; charset=utf-8
    that carries the caller's context. *)
Theorem requests_are_posts_under_ctx c ctx (method : string)
    (options : list ChainCallOption) w :
  let sent (w' : World) (n : nat) :=
    wire w' = (wire w ++ sent_since w w')%list /\
    (length (sent_since w w') <= n)%nat /\
    Forall (well_formed ctx) (sent_since w w') in
  sent (snd (shakehand R c ctx w)) 1%nat /\
  sent (snd (chainCall R c ctx method options w)) 2%nat /\
  sent (snd (chainCallForBiz R c ctx method options w)) 2%nat.
Proof.
  cbv zeta.
  assert (Hsent : forall (w' : World) (n : nat) (P : Request -> Prop) (new : list Request),
            wire w' = (wire w ++ new)%list -> (length new <= n)%nat ->
            Forall (fun req => well_formed ctx req /\ P req) new ->
            wire w' = (wire w ++ sent_since w w')%list /\
            (length (sent_since w w') <= n)%nat /\
            Forall (well_formed ctx) (sent_since w w')).
  { intros w' n P new E Hn Hall. rewrite (sent_since_app _ _ _ E).
    repeat split; [done|done|]. eapply Forall_impl; [exact Hall|]. by intros req [H _]. }
  destruct (shakehand_sent c ctx w) as (new1 & E1 & Hn1 & Hall1).
  split; [by apply (Hsent _ _ (fun req => URL req = Endpoint (cfg c) +:+ SHAKE_HAND) new1)|].
  rewrite chainCall_run, chainCallForBiz_run.
  destruct (shakehand R c ctx w) as [[token|e] w1]; simpl in E1.
  2:{ split; apply (Hsent _ _ (fun req => URL req = Endpoint (cfg c) +:+ SHAKE_HAND) new1);
        simpl; (done || lia). }
  split.
  - match goal with |- context [do R c ctx ?u ?p w1] =>
      destruct (do_sent c ctx u p w1) as (new2 & E2 & Hn2 & Hall2)
    end.
    apply (Hsent _ _ (fun _ => True) (new1 ++ new2)%list).
    + by rewrite E2, E1, app_assoc.
    + rewrite length_app. lia.
    + apply Forall_app. split; (eapply Forall_impl; [eassumption|]);
        by intros req [H _].
  - match goal with |- context [do R c ctx ?u ?p (tick w1)] =>
      destruct (do_sent c ctx u p (tick w1)) as (new2 & E2 & Hn2 & Hall2)
    end.
    apply (Hsent _ _ (fun _ => True) (new1 ++ new2)%list).
    + rewrite E2. simpl. by rewrite E1, app_assoc.
    + rewrite length_app. lia.
    + apply Forall_app. split; (eapply Forall_impl; [eassumption|]);
        by intros req [H _].
Qed.

(** X5.  A call that returns a payload made exactly two round trips, in
    this order: the handshake to [Endpoint ++ SHAKE_HAND], then the request
    to the call's own path, whose body is the encoding of the parameters
    assembled with the token that handshake returned. *)
Theorem successful_call_makes_two_round_trips c ctx (method : string)
    (options : list ChainCallOption) w (payload : string) :
  (fst (chainCall R c ctx method options w) = Ok payload ->
   exists (token : string) (b1 b2 : list byte),
     fst (shakehand R c ctx w) = Ok token /\
     json_Marshal R (chainCall_params c method token options) = Ok b2 /\
     sent_since w (snd (chainCall R c ctx method options w))
     = [post_request ctx (Endpoint (cfg c) +:+ SHAKE_HAND) b1;
        post_request ctx (Endpoint (cfg c) +:+ CHAIN_CALL) b2]) /\
  (fst (chainCallForBiz R c ctx method options w) = Ok payload ->
   exists (token : string) (b1 b2 : list byte) (id : UUID),
     fst (shakehand R c ctx w) = Ok token /\
     json_Marshal R (chainCallForBiz_params c method token options id) = Ok b2 /\
     sent_since w (snd (chainCallForBiz R c ctx method options w))
     = [post_request ctx (Endpoint (cfg c) +:+ SHAKE_HAND) b1;
        post_request ctx (Endpoint (cfg c) +:+ CHAIN_CALL_FOR_BIZ) b2]).
Proof.
  rewrite chainCall_run, chainCallForBiz_run.
  destruct (shakehand R c ctx w) as [[token|e] w1] eqn:Hs.
  2:{ split; discriminate. }
  destruct (shakehand_Ok_inv c ctx w token w1 Hs) as (b1 & E1).
  split; intros H.
  - destruct (do_Ok_inv _ _ _ _ _ _ H) as (b2 & H1 & _ & E2).
    exists token, b1, b2. repeat split; [done|].
    apply sent_since_app. rewrite E2. simpl. rewrite E1, <- app_assoc. reflexivity.
  - destruct (do_Ok_inv _ _ _ _ _ _ H) as (b2 & H1 & _ & E2).
    exists token, b1, b2, (stamp_v4 (drawn R (instant w1))). repeat split; [done|].
    apply sent_since_app. rewrite E2. simpl. rewrite E1, <- app_assoc. reflexivity.
Qed.

(** X6.  A handshake whose signing step fails sends nothing.  If SHA-256
    is not available the error is the one [Sign] formats with the name of
    the hash; if the RSA primitive fails, its error is passed on.  Either
    way the handshake and both call shapes return that error, and the wire
    is as it was. *)
Theorem signing_failure_sends_nothing c ctx (method : string)
    (options : list ChainCallOption) w (e : error) :
  let data := list_byte_of_string (AccessID (cfg c) +:+ FormatInt (clock R (instant w))) in
  (Available R SHA256 = false /\ e = Errorf_unavailable (Hash_String R SHA256)) \/
  (Available R SHA256 = true /\
   SignPKCS1v15 R (S (instant w)) (pk_key (key c)) SHA256 (Hash_Sum R SHA256 data) = Err e) ->
  (fst (shakehand R c ctx w) = Err e /\
   fst (chainCall R c ctx method options w) = Err e /\
   fst (chainCallForBiz R c ctx method options w) = Err e) /\
  (wire (snd (shakehand R c ctx w)) = wire w /\
   wire (snd (chainCall R c ctx method options w)) = wire w /\
   wire (snd (chainCallForBiz R c ctx method options w)) = wire w).
Proof.
  intros data H.
  assert (Hs : exists w1, shakehand R c ctx w = (Err e, w1) /\ wire w1 = wire w).
  { rewrite shakehand_run. cbv zeta. rewrite Sign_run. fold data.
    destruct H as [[Hav ->] | [Hav Hsign]]; rewrite Hav.
    - by eexists.
    - simpl. rewrite Hsign. by eexists. }
  destruct Hs as (w1 & Hs & Hw).
  rewrite chainCall_run, chainCallForBiz_run, Hs. by repeat split.
Qed.


End Wire.

Lemma unsendable_request_sends_nothing_witness :
  do picky_runtime (demo_client body_deadbeef) Background
    ":" (<["callback" := VOpaque 1]> ∅) w0
  = (Err (Foreign "json" "unsupported type: func()"), w0) /\
  do picky_runtime (demo_client body_deadbeef) Background ":" ∅ w0
  = (Err (Foreign "net/url" "missing protocol scheme"), w0).
Proof.
  split.
  - apply (unsendable_request_sends_nothing picky_runtime). left. reflexivity.
  - apply (unsendable_request_sends_nothing picky_runtime). right.
    exists []. split; reflexivity.
Defined.

Lemma transport_error_is_returned_verbatim_witness :
  fst (do demo_runtime broken_client Background (Endpoint demo_config +:+ CHAIN_CALL) ∅ w0)
  = Err (Foreign "net/http" "connection reset").
Proof.
  pose proof (transport_error_is_returned_verbatim demo_runtime broken_client
                Background w0 (Foreign "net/http" "connection reset") eq_refl) as (H & _).
  apply (H (Endpoint demo_config +:+ CHAIN_CALL) ∅ []); reflexivity.
Defined.

Lemma status_code_is_ignored_witness :
  do demo_runtime (demo_client body_deadbeef) Background
    (Endpoint demo_config +:+ CHAIN_CALL) ∅ w0
  = do demo_runtime (failing_status_client body_deadbeef) Background
      (Endpoint demo_config +:+ CHAIN_CALL) ∅ w0.
Proof.
  apply (status_code_is_ignored demo_runtime (demo_client body_deadbeef)
           (failing_status_client body_deadbeef) Background
           (Endpoint demo_config +:+ CHAIN_CALL) ∅ w0 []
           {| StatusCode := 200; RespBody := Ok body_deadbeef |}
           {| StatusCode := 500; RespBody := Ok body_deadbeef |});
    reflexivity.
Defined.

Lemma successful_call_makes_two_round_trips_witness :
  exists (token : string) (b1 b2 : list byte),
    fst (shakehand demo_runtime (demo_client body_deadbeef) Background w0) = Ok token /\
    json_Marshal demo_runtime
      (chainCall_params (demo_client body_deadbeef) "DEPOSIT" token []) = Ok b2 /\
    sent_since w0
      (snd (chainCall demo_runtime (demo_client body_deadbeef) Background "DEPOSIT" [] w0))
    = [post_request Background (Endpoint demo_config +:+ SHAKE_HAND) b1;
       post_request Background (Endpoint demo_config +:+ CHAIN_CALL) b2].
Proof.
  pose proof (successful_call_makes_two_round_trips demo_runtime
                (demo_client body_deadbeef) Background "DEPOSIT" [] w0 "deadbeef")
    as (H & _).
  apply H. vm_compute. reflexivity.
Defined.

Lemma signing_failure_sends_nothing_witness :
  (fst (shakehand nohash_runtime (demo_client body_deadbeef) Background w0)
   = Err (Errorf_unavailable "SHA-256") /\
   fst (chainCall nohash_runtime (demo_client body_deadbeef) Background "DEPOSIT" [] w0)
   = Err (Errorf_unavailable "SHA-256") /\
   fst (chainCallForBiz nohash_runtime (demo_client body_deadbeef) Background
          "DEPOSIT" [] w0)
   = Err (Errorf_unavailable "SHA-256")) /\
  (wire (snd (shakehand nohash_runtime (demo_client body_deadbeef) Background w0))
   = wire w0 /\
   wire (snd (chainCall nohash_runtime (demo_client body_deadbeef) Background
                "DEPOSIT" [] w0))
   = wire w0 /\
   wire (snd (chainCallForBiz nohash_runtime (demo_client body_deadbeef) Background
                "DEPOSIT" [] w0))
   = wire w0).
Proof.
  apply (signing_failure_sends_nothing nohash_runtime (demo_client body_deadbeef)
           Background "DEPOSIT" [] w0 (Errorf_unavailable "SHA-256")).
  left. split; reflexivity.
Defined.


(* ===================================================================== *)
(** * Further properties: parameter assembly *)
(* ===================================================================== *)

Lemma apply_injectors_dom (kvs : list (string * any)) (m : X) :
  dom (apply_options (injectors kvs) m) = dom m ∪ (list_to_set (map fst kvs) : gset string).
Proof.
  revert m. induction kvs as [|[k v] rest IH]; intros m.
  - simpl. by rewrite union_empty_r_L.
  - simpl injectors. rewrite apply_options_cons, IH. unfold WithParam.
    rewrite dom_insert_L. simpl.
    by rewrite (comm_L (∪) {[k]} (dom m)), <- (assoc_L (∪)).
Qed.

(** With distinct keys, the last value for a key is the value of the one
    pair naming it. *)
Lemma last_value_NoDup (k : string) (v : any) (kvs : list (string * any)) :
  NoDup (map fst kvs) -> (last_value k kvs = Some v <-> (k, v) ∈ kvs).
Proof.
  revert v. induction kvs as [|[k' v'] rest IH]; simpl; intros v Hnd.
  - split; [discriminate | by intros ?%elem_of_nil].
  - apply NoDup_cons in Hnd as [Hk' Hnd].
    assert (IH' : forall v, last_value k rest = Some v <-> (k, v) ∈ rest)
      by (intros v1; by apply IH).
    assert (Hfresh : forall v1, (k', v1) ∉ rest).
    { intros v1 Hin. apply Hk'. apply list_elem_of_In.
      apply list_elem_of_In in Hin. by apply (in_map fst) in Hin. }
    rewrite elem_of_cons. destruct (last_value k rest) as [v0|] eqn:E.
    + assert (Hin : (k, v0) ∈ rest) by (by apply IH').
      split.
      * intros [= ->]. by right.
      * intros [[= -> ->]|H]; [by apply Hfresh in Hin|].
        apply IH' in H. congruence.
    + destruct (String.eqb_spec k' k) as [->|Hne]; split.
      * intros [= ->]. by left.
      * intros [[= ->]|H]; [done|]. apply IH' in H. discriminate.
      * discriminate.
      * intros [[= -> ->]|H]; [done|]. apply IH' in H. discriminate.
Qed.

Lemma last_value_Permutation (k : string) (kvs kvs' : list (string * any)) :
  NoDup (map fst kvs) -> kvs ≡ₚ kvs' -> last_value k kvs = last_value k kvs'.
Proof.
  intros Hnd Hp.
  assert (Hnd' : NoDup (map fst kvs')).
  { by rewrite <- (Permutation_map fst Hp). }
  destruct (last_value k kvs) as [v|] eqn:E.
  - symmetry. apply last_value_NoDup; [done|]. rewrite <- Hp.
    by apply last_value_NoDup.
  - destruct (last_value k kvs') as [v'|] eqn:E'; [|done].
    apply last_value_NoDup in E'; [|done]. rewrite <- Hp in E'.
    apply last_value_NoDup in E'; [|done]. congruence.
Qed.

(** X8.  The keys of the assembled parameters are the protocol's own keys
    together with the keys the injectors name, and nothing else. *)
Theorem assembled_keys (c : client) (method token : string)
    (kvs : list (string * any)) (id : UUID) :
  dom (chainCall_params c method token (injectors kvs))
  = (list_to_set (chainCall_keys ++ map fst kvs) : gset string) /\
  dom (chainCallForBiz_params c method token (injectors kvs) id)
  = (list_to_set (chainCallForBiz_keys ++ map fst kvs) : gset string).
Proof.
  unfold chainCall_params, chainCallForBiz_params, chainCall_keys, chainCallForBiz_keys.
  cbv zeta. rewrite !dom_insert_L, !apply_injectors_dom, !list_to_set_app_L.
  simpl. split; apply set_eq; intros x; set_unfold; tauto.
Qed.

(** X9.  Injectors for pairwise distinct keys commute: applying them in
    any order gives the same mapping, and so the same parameters for both
    call shapes.  Order matters only on key collisions. *)
Theorem independent_injectors_commute (c : client) (method token : string) (id : UUID)
    (kvs kvs' : list (string * any)) (m : X) :
  NoDup (map fst kvs) ->
  kvs ≡ₚ kvs' ->
  apply_options (injectors kvs) m = apply_options (injectors kvs') m /\
  chainCall_params c method token (injectors kvs)
  = chainCall_params c method token (injectors kvs') /\
  chainCallForBiz_params c method token (injectors kvs) id
  = chainCallForBiz_params c method token (injectors kvs') id.
Proof.
  intros Hnd Hp.
  assert (E : forall m : X,
            apply_options (injectors kvs) m = apply_options (injectors kvs') m).
  { intros m0. apply map_eq. intros k.
    by rewrite !apply_injectors, (last_value_Permutation k kvs kvs'). }
  split; [apply E|].
  unfold chainCall_params, chainCallForBiz_params. cbv zeta. by rewrite !E.
Qed.

Lemma independent_injectors_commute_witness :
  apply_options (injectors [("gas", VInt 1); ("content", VString "x")]) ∅
  = apply_options (injectors [("content", VString "x"); ("gas", VInt 1)]) ∅ /\
  chainCall_params (demo_client body_deadbeef) "DEPOSIT" "tok"
    (injectors [("gas", VInt 1); ("content", VString "x")])
  = chainCall_params (demo_client body_deadbeef) "DEPOSIT" "tok"
      (injectors [("content", VString "x"); ("gas", VInt 1)]) /\
  chainCallForBiz_params (demo_client body_deadbeef) "DEPOSIT" "tok"
    (injectors [("gas", VInt 1); ("content", VString "x")]) (drawn demo_runtime 0)
  = chainCallForBiz_params (demo_client body_deadbeef) "DEPOSIT" "tok"
      (injectors [("content", VString "x"); ("gas", VInt 1)]) (drawn demo_runtime 0).
Proof.
  apply (independent_injectors_commute (demo_client body_deadbeef) "DEPOSIT" "tok"
           (drawn demo_runtime 0)
           [("gas", VInt 1); ("content", VString "x")]
           [("content", VString "x"); ("gas", VInt 1)] ∅).
  - simpl. repeat constructor; [|apply not_elem_of_nil].
    rewrite not_elem_of_cons. split; [discriminate | apply not_elem_of_nil].
  - apply Permutation_swap.
Defined.

(* ===================================================================== *)
(** * Further properties: the later revision of [do] *)
(* ===================================================================== *)

Lemma Errorf_Err_shows (code data : string) :
  Contains (Error (Rev1.Errorf_Err code data)) code /\
  Contains (Error (Rev1.Errorf_Err code data)) data.
Proof.
  unfold Rev1.Errorf_Err, Error. split.
  - apply Contains_middle.
  - rewrite <- !append_assoc. apply Contains_end.
Qed.

Section Revision.

Context (R : Runtime).

Lemma rev1_do_response (c : Rev1.client) (ctx : Context) (reqURL : string) (params : X)
    (body : list byte) (resp : Response) (b : list byte) (w : World) :
  json_Marshal R params = Ok body ->
  Rev1.hc c (instant w) (post_request ctx reqURL body) = Ok resp ->
  RespBody resp = Ok b ->
  Rev1.do R c ctx reqURL params w
  = (envelope_result_rev1 R b, after_round_trip w (post_request ctx reqURL body)).
Proof.
  intros H1 H2 H3. unfold post_request, MethodPost in H2.
  unfold Rev1.do, Rev1.HTTPClient_Do, bind, lift, fail, pure, envelope_result_rev1,
    after_round_trip, post_request, MethodPost.
  rewrite H1. simpl. rewrite H2. simpl. rewrite H3. simpl.
  by destruct (negb (Bool (Get (gjson_ParseBytes R b) "success"))).
Qed.

(** X10.  The later revision of [do] keeps the envelope contract: a
    response whose success flag is false gives an error whose message shows
    the code and the data, and never the data as a payload; a response
    whose flag is true gives the data text, and no error. *)
Theorem rev1_envelope_contract (c : Rev1.client) (ctx : Context) (reqURL : string)
    (params : X) (body : list byte) (resp : Response) (b : list byte) (w : World) :
  json_Marshal R params = Ok body ->
  Rev1.hc c (instant w) (post_request ctx reqURL body) = Ok resp ->
  RespBody resp = Ok b ->
  (Bool (Get (gjson_ParseBytes R b) "success") = false ->
   RemoteFailure (fst (Rev1.do R c ctx reqURL params w))
     (String_ R (Get (gjson_ParseBytes R b) "code"))
     (String_ R (Get (gjson_ParseBytes R b) "data"))) /\
  (Bool (Get (gjson_ParseBytes R b) "success") = true ->
   fst (Rev1.do R c ctx reqURL params w)
   = Ok (String_ R (Get (gjson_ParseBytes R b) "data"))).
Proof.
  intros H1 H2 H3. rewrite (rev1_do_response _ _ _ _ _ _ _ _ H1 H2 H3).
  unfold envelope_result_rev1. cbv zeta. split; intros H; rewrite H; simpl.
  - split; [discriminate|]. eexists. split; [reflexivity|]. apply Errorf_Err_shows.
  - reflexivity.
Qed.

(** X11.  The later revision of [do] has no cancellation check of its
    own: an error of the executor is returned as it is, whether or not the
    context is done.  For the same failing round trip under a context that
    is done, the earlier [do] returns the context's error instead. *)
Theorem rev1_executor_error_verbatim (c : Rev1.client) (c0 : client) (ctx : Context)
    (reqURL : string) (params : X) (body : list byte) (err : error) (w : World) :
  json_Marshal R params = Ok body ->
  Rev1.hc c (instant w) (post_request ctx reqURL body) = Err err ->
  Rev1.do R c ctx reqURL params w
  = (Err err, after_round_trip w (post_request ctx reqURL body)) /\
  (url_Parse R reqURL = None ->
   cli c0 = Rev1.hc c ->
   Done ctx (S (instant w)) = true ->
   fst (do R c0 ctx reqURL params w) = Err (ctx_Err ctx)).
Proof.
  intros H1 H2. split.
  - unfold post_request, MethodPost in H2.
    unfold Rev1.do, Rev1.HTTPClient_Do, bind, lift, after_round_trip, post_request,
      MethodPost.
    rewrite H1. simpl. by rewrite H2.
  - intros Hu Hc Hdone. rewrite <- Hc in H2.
    by rewrite (do_transport_error R _ _ _ _ _ _ _ H1 Hu H2), Hdone.
Qed.

End Revision.

Lemma rev1_envelope_contract_witness :
  RemoteFailure
    (fst (Rev1.do demo_runtime (demo_client_rev1 (fun _ _ => respond body_E1)) Background
            (Endpoint demo_config +:+ CHAIN_CALL) ∅ w0))
    "E1" "boom".
Proof.
  pose proof (rev1_envelope_contract demo_runtime
                (demo_client_rev1 (fun _ _ => respond body_E1)) Background
                (Endpoint demo_config +:+ CHAIN_CALL) ∅ []
                {| StatusCode := 200; RespBody := Ok body_E1 |} body_E1 w0
                eq_refl eq_refl eq_refl) as (H & _).
  apply H. vm_compute. reflexivity.
Defined.

Lemma rev1_executor_error_verbatim_witness :
  Rev1.do demo_runtime
    (demo_client_rev1 (fun _ _ => Err (Foreign "net/http" "connection reset")))
    (DoneFrom 1 Canceled) (Endpoint demo_config +:+ CHAIN_CALL) ∅ w0
  = (Err (Foreign "net/http" "connection reset"),
     after_round_trip w0
       (post_request (DoneFrom 1 Canceled) (Endpoint demo_config +:+ CHAIN_CALL) [])) /\
  fst (do demo_runtime broken_client (DoneFrom 1 Canceled)
         (Endpoint demo_config +:+ CHAIN_CALL) ∅ w0)
  = Err Canceled.
Proof.
  pose proof (rev1_executor_error_verbatim demo_runtime
                (demo_client_rev1 (fun _ _ => Err (Foreign "net/http" "connection reset")))
                broken_client (DoneFrom 1 Canceled)
                (Endpoint demo_config +:+ CHAIN_CALL) ∅ []
                (Foreign "net/http" "connection reset") w0 eq_refl eq_refl) as (H1 & H2).
  split; [exact H1|]. apply H2; reflexivity.
Defined.

(* ===================================================================== *)
(** * Further properties: token identifiers *)
(* ===================================================================== *)

Lemma hex_digit_values (b : byte) :
  let hi := digitVal 16 (hexdigit (N.shiftr (Byte.to_N b) 4)) in
  let lo := digitVal 16 (hexdigit (N.land (Byte.to_N b) 15)) in
  ((16 <=? hi) = false /\ (16 <=? lo) = false /\ hi * 16 + lo = uint_of_byte b)%Z.
Proof. destruct b; repeat split. Qed.

Lemma hex_digit_no_sign (b : byte) :
  Ascii.eqb (hexdigit (N.shiftr (Byte.to_N b) 4)) "-" = false /\
  Ascii.eqb (hexdigit (N.shiftr (Byte.to_N b) 4)) "+" = false.
Proof. destruct b; split; reflexivity. Qed.

Lemma hex_EncodeToString_cons (b : byte) (src : list byte) :
  hex_EncodeToString (b :: src)
  = String (hexdigit (N.shiftr (Byte.to_N b) 4))
      (String (hexdigit (N.land (Byte.to_N b) 15)) (hex_EncodeToString src)).
Proof. reflexivity. Qed.

(** The scanner reads the hex text of a byte string as the number the
    bytes denote, continuing from the value read so far. *)
Lemma nat_scan_hex (src : list byte) (acc : Z) (n : nat) :
  nat_scan 16 (hex_EncodeToString src) acc n
  = (fold_left (fun acc b => (acc * 256 + uint_of_byte b)%Z) src acc,
     (n + 2 * length src)%nat, EmptyString).
Proof.
  revert acc n. induction src as [|b src IH]; intros acc n.
  - simpl. by rewrite Nat.add_0_r.
  - rewrite hex_EncodeToString_cons. cbn [nat_scan].
    destruct (hex_digit_values b) as (Hhi & Hlo & Hval). cbv zeta in Hhi, Hlo, Hval.
    rewrite Hhi, Hlo, IH. cbn [fold_left length].
    replace ((acc * 16 + digitVal 16 (hexdigit (N.shiftr (Byte.to_N b) 4))) * 16
             + digitVal 16 (hexdigit (N.land (Byte.to_N b) 15)))%Z
      with (acc * 256 + uint_of_byte b)%Z by lia.
    replace (S (S n) + 2 * length src)%nat with (n + 2 * S (length src))%nat by lia.
    reflexivity.
Qed.

Lemma nat_scan_nonneg (s : string) (acc : Z) (n : nat) :
  (0 <= acc)%Z -> (0 <= fst (fst (nat_scan 16 s acc n)))%Z.
Proof.
  revert acc n. induction s as [|c s IH]; intros acc n H; [done|].
  cbn [nat_scan]. destruct (16 <=? digitVal 16 c)%Z eqn:E; [done|].
  apply IH. assert (0 <= digitVal 16 c)%Z; [|lia].
  clear. destruct c as [b0 b1 b2 b3 b4 b5 b6 b7].
  destruct b0, b1, b2, b3, b4, b5, b6, b7; by vm_compute.
Qed.

Lemma is_hex_digit_no_sign (c : ascii) :
  is_hex_digit c = true -> Ascii.eqb c "-" = false /\ Ascii.eqb c "+" = false.
Proof.
  destruct c as [b0 b1 b2 b3 b4 b5 b6 b7].
  destruct b0, b1, b2, b3, b4, b5, b6, b7; by vm_compute.
Qed.

(** X12.  The token of a byte string's hex text is the number the bytes
    denote, most significant byte first: for the hex form of an MD5 digest,
    the 128-bit number the digest spells. *)
Theorem GetTokenID_of_hex (src : list byte) :
  src <> [] ->
  GetTokenID (hex_EncodeToString src) = Some (be_value src).
Proof.
  destruct src as [|b src]; [done|]. intros _.
  unfold GetTokenID, SetString, Int_scan, scanSign.
  rewrite hex_EncodeToString_cons.
  destruct (hex_digit_no_sign b) as [-> ->].
  rewrite <- hex_EncodeToString_cons, nat_scan_hex. reflexivity.
Qed.

Lemma GetTokenID_of_hex_witness :
  GetTokenID (hex_EncodeToString [xde; xad; xbe; xef]) = Some (be_value [xde; xad; xbe; xef]).
Proof. apply (GetTokenID_of_hex [xde; xad; xbe; xef]). discriminate. Defined.

(** X13.  The parser accepts a sign: for a non-empty run of hex digits
    the token is a non-negative number, a leading plus changes nothing, and
    a leading minus gives the negated number. *)
Theorem GetTokenID_signed (c : ascii) (rest : string) :
  forallb is_hex_digit (c :: list_ascii_of_string rest) = true ->
  exists v : Z,
    (0 <= v)%Z /\
    GetTokenID (String c rest) = Some v /\
    GetTokenID (String "+" (String c rest)) = Some v /\
    GetTokenID (String "-" (String c rest)) = Some (- v)%Z.
Proof.
  intros H.
  destruct (nat_scan_all_digits (String c rest) 0 0 H) as [v Hv].
  pose proof (nat_scan_nonneg (String c rest) 0 0 (Z.le_refl 0)) as Hpos.
  rewrite Hv in Hpos. simpl in Hpos.
  cbn [forallb] in H. apply andb_prop in H as [Hc _].
  destruct (is_hex_digit_no_sign c Hc) as [Hm Hp].
  exists v. split; [exact Hpos|].
  unfold GetTokenID, SetString, Int_scan, scanSign.
  rewrite Hm, Hp. cbn [Ascii.eqb Bool.eqb]. rewrite Hv. by repeat split.
Qed.

Lemma GetTokenID_signed_witness :
  exists v : Z,
    (0 <= v)%Z /\
    GetTokenID "ff" = Some v /\
    GetTokenID "+ff" = Some v /\
    GetTokenID "-ff" = Some (- v)%Z.
Proof. apply (GetTokenID_signed "f" "f"). reflexivity. Defined.

Lemma digitVal16_lower (c : ascii) : digitVal 16 (lower_ascii c) = digitVal 16 c.
Proof.
  destruct c as [b0 b1 b2 b3 b4 b5 b6 b7].
  destruct b0, b1, b2, b3, b4, b5, b6, b7; reflexivity.
Qed.

Lemma lower_ascii_sign (c : ascii) :
  Ascii.eqb (lower_ascii c) "-" = Ascii.eqb c "-" /\
  Ascii.eqb (lower_ascii c) "+" = Ascii.eqb c "+".
Proof.
  destruct c as [b0 b1 b2 b3 b4 b5 b6 b7].
  destruct b0, b1, b2, b3, b4, b5, b6, b7; split; reflexivity.
Qed.

Lemma nat_scan_lower (s : string) (acc : Z) (n : nat) :
  nat_scan 16 (ToLower s) acc n
  = let '(v, m, r) := nat_scan 16 s acc n in (v, m, ToLower r).
Proof.
  revert acc n. induction s as [|c s IH]; intros acc n; [reflexivity|].
  cbn [ToLower nat_scan]. rewrite digitVal16_lower.
  destruct (16 <=? digitVal 16 c)%Z; [reflexivity|]. apply IH.
Qed.

(** X14.  The parser does not tell upper-case from lower-case digits:
    lowering the case of the input never changes the token, valid or not. *)
Theorem GetTokenID_case_insensitive (token : string) :
  GetTokenID (ToLower token) = GetTokenID token.
Proof.
  unfold GetTokenID, SetString, Int_scan, scanSign.
  destruct token as [|c rest]; [reflexivity|]. cbn [ToLower].
  destruct (lower_ascii_sign c) as [-> ->].
  destruct (Ascii.eqb c "-");
    [|destruct (Ascii.eqb c "+");
      [|change (String (lower_ascii c) (ToLower rest)) with (ToLower (String c rest))]];
    rewrite nat_scan_lower;
    (destruct (nat_scan 16 _ 0 0) as [[v m] r]; destruct m; [done|]; by destruct r).
Qed.

(* ===================================================================== *)
(** * Further properties: contract output and identities *)
(* ===================================================================== *)

Lemma lor_disjoint (a y k : Z) :
  (0 <= k)%Z -> (a mod 2 ^ k = 0)%Z -> (0 <= y < 2 ^ k)%Z -> Z.lor a y = (a + y)%Z.
Proof.
  intros Hk Ha Hy.
  rewrite Z.add_nocarry_lxor, Z.lxor_lor; [reflexivity| |];
    (apply Z.bits_inj'; intros n Hn; rewrite Z.land_spec, Z.bits_0;
     destruct (Z.lt_ge_cases n k) as [Hlt|Hge];
     [ rewrite <- (Z.mod_pow2_bits_low a k n) by lia; rewrite Ha, Z.bits_0; reflexivity
     | rewrite <- (Z.mod_small y (2 ^ k)) by lia;
       rewrite (Z.mod_pow2_bits_high y k n) by lia; apply andb_false_r ]).
Qed.

Lemma uint_of_byte_range (b : byte) : (0 <= uint_of_byte b < 256)%Z.
Proof. unfold uint_of_byte. pose proof (Byte.to_N_bounded b). lia. Qed.

Lemma byte_of_uint_of_byte (b : byte) : byte_of_uint (uint_of_byte b) = b.
Proof. destruct b; reflexivity. Qed.

Lemma decodeMap_encode_char (i : Z) :
  (0 <= i < 64)%Z ->
  decodeMap (encode_char i) = Some i /\
  is_newline (encode_char i) = false /\
  Ascii.eqb (encode_char i) StdPadding = false.
Proof.
  intros [H0 H1]. destruct i as [|p|p]; [by vm_compute| |lia].
  do 6 (destruct p as [p|p|]; [| |by vm_compute]); lia.
Qed.

Ltac pow2 :=
  change (2 ^ 0)%Z with 1%Z in *; change (2 ^ 6)%Z with 64%Z in *;
  change (2 ^ 8)%Z with 256%Z in *; change (2 ^ 12)%Z with 4096%Z in *;
  change (2 ^ 16)%Z with 65536%Z in *; change (2 ^ 18)%Z with 262144%Z in *.

Lemma lor_add (a y k : Z) :
  (0 <= k)%Z -> (exists q, a = q * 2 ^ k)%Z -> (0 <= y < 2 ^ k)%Z -> Z.lor a y = (a + y)%Z.
Proof.
  intros Hk [q ->] Hy. apply (lor_disjoint _ _ k); [done| |done]. apply Z_mod_mult.
Qed.

Lemma val_three (b0 b1 b2 : Z) :
  (0 <= b0 < 256 -> 0 <= b1 < 256 -> 0 <= b2 < 256 ->
   Z.lor (Z.lor (Z.shiftl b0 16) (Z.shiftl b1 8)) b2 = b0 * 65536 + b1 * 256 + b2)%Z.
Proof.
  intros H0 H1 H2. rewrite !Z.shiftl_mul_pow2 by lia. pow2.
  rewrite (lor_add (b0 * 65536) (b1 * 256) 16); pow2; [|lia|by exists b0|lia].
  rewrite (lor_add _ b2 8); pow2; [lia|lia| |lia].
  exists (b0 * 256 + b1)%Z. lia.
Qed.

Lemma val_four (d0 d1 d2 d3 : Z) :
  (0 <= d0 < 64 -> 0 <= d1 < 64 -> 0 <= d2 < 64 -> 0 <= d3 < 64 ->
   Z.lor (Z.lor (Z.lor (Z.shiftl d0 18) (Z.shiftl d1 12)) (Z.shiftl d2 6)) d3
   = d0 * 262144 + d1 * 4096 + d2 * 64 + d3)%Z.
Proof.
  intros H0 H1 H2 H3. rewrite !Z.shiftl_mul_pow2 by lia. pow2.
  rewrite (lor_add (d0 * 262144) (d1 * 4096) 18); pow2; [|lia|by exists d0|lia].
  rewrite (lor_add _ (d2 * 64) 12); pow2; [|lia| |lia].
  2:{ exists (d0 * 64 + d1)%Z. lia. }
  rewrite (lor_add _ d3 6); pow2; [lia|lia| |lia].
  exists (d0 * 4096 + d1 * 64 + d2)%Z. lia.
Qed.

Lemma sextet_value (val k : Z) :
  (0 <= k)%Z -> Z.land (Z.shiftr val k) 63 = ((val / 2 ^ k) mod 64)%Z.
Proof.
  intros Hk. rewrite Z.shiftr_div_pow2 by done.
  change 63%Z with (Z.ones 6). by rewrite Z.land_ones.
Qed.

Lemma sextet_range (val k : Z) : (0 <= Z.land (Z.shiftr val k) 63 < 64)%Z.
Proof.
  change 63%Z with (Z.ones 6). rewrite Z.land_ones by done.
  apply Z.mod_pos_bound. done.
Qed.

Lemma sextets_value (val : Z) :
  (0 <= val < 16777216 ->
   (val / 262144) mod 64 * 262144 + (val / 4096) mod 64 * 4096
   + (val / 64) mod 64 * 64 + (val / 1) mod 64 = val)%Z.
Proof. intros H. Z.div_mod_to_equations. lia. Qed.

Lemma decode_three (b0 b1 b2 : byte) :
  let val := Z.lor (Z.lor (Z.shiftl (uint_of_byte b0) 16) (Z.shiftl (uint_of_byte b1) 8))
                   (uint_of_byte b2) in
  quantum_bytes [Z.land (Z.shiftr val 18) 63; Z.land (Z.shiftr val 12) 63;
                 Z.land (Z.shiftr val 6) 63; Z.land (Z.shiftr val 0) 63]
  = [b0; b1; b2].
Proof.
  intros val.
  pose proof (uint_of_byte_range b0) as H0.
  pose proof (uint_of_byte_range b1) as H1.
  pose proof (uint_of_byte_range b2) as H2.
  assert (Hval : val = (uint_of_byte b0 * 65536 + uint_of_byte b1 * 256 + uint_of_byte b2)%Z)
    by (by apply val_three).
  unfold quantum_bytes. cbn [nth length Nat.sub take].
  rewrite val_four by apply sextet_range.
  rewrite !sextet_value by lia. pow2.
  rewrite !Z.shiftr_div_pow2 by lia. pow2.
  clearbody val.
  rewrite sextets_value by lia.
  rewrite <- (byte_of_uint_of_byte b0), <- (byte_of_uint_of_byte b1),
    <- (byte_of_uint_of_byte b2).
  unfold byte_of_uint. rewrite Hval.
  f_equal; [|f_equal; [|f_equal]]; do 2 f_equal; Z.div_mod_to_equations; lia.
Qed.

Lemma decode_two (b0 b1 : byte) :
  let val := Z.lor (Z.shiftl (uint_of_byte b0) 16) (Z.shiftl (uint_of_byte b1) 8) in
  quantum_bytes [Z.land (Z.shiftr val 18) 63; Z.land (Z.shiftr val 12) 63;
                 Z.land (Z.shiftr val 6) 63]
  = [b0; b1].
Proof.
  intros val.
  pose proof (uint_of_byte_range b0) as H0.
  pose proof (uint_of_byte_range b1) as H1.
  assert (Hval : val = (uint_of_byte b0 * 65536 + uint_of_byte b1 * 256)%Z).
  { unfold val. rewrite <- (Z.lor_0_r (Z.lor _ _)), val_three by lia. lia. }
  unfold quantum_bytes. cbn [nth length Nat.sub take].
  rewrite val_four by (try apply sextet_range; lia).
  rewrite !sextet_value by lia. pow2.
  rewrite !Z.shiftr_div_pow2 by lia. pow2.
  clearbody val.
  rewrite <- (byte_of_uint_of_byte b0), <- (byte_of_uint_of_byte b1).
  unfold byte_of_uint. rewrite Hval.
  f_equal; [|f_equal]; do 2 f_equal; Z.div_mod_to_equations; lia.
Qed.

Lemma decode_one (b0 : byte) :
  let val := Z.shiftl (uint_of_byte b0) 16 in
  quantum_bytes [Z.land (Z.shiftr val 18) 63; Z.land (Z.shiftr val 12) 63] = [b0].
Proof.
  intros val.
  pose proof (uint_of_byte_range b0) as H0.
  assert (Hval : val = (uint_of_byte b0 * 65536)%Z).
  { unfold val. by rewrite Z.shiftl_mul_pow2. }
  unfold quantum_bytes. cbn [nth length Nat.sub take].
  rewrite val_four by (try apply sextet_range; lia).
  rewrite !sextet_value by lia. pow2.
  rewrite !Z.shiftr_div_pow2 by lia. pow2.
  clearbody val.
  rewrite <- (byte_of_uint_of_byte b0).
  unfold byte_of_uint. rewrite Hval.
  do 3 f_equal; Z.div_mod_to_equations; lia.
Qed.

Lemma Decode_from_sextet (val k : Z) (rest : string) (si : Z) (dbuf : list Z) :
  Decode_from (String (sextet val k) rest) si dbuf
  = let dbuf := (dbuf ++ [Z.land (Z.shiftr val k) 63])%list in
    if (length dbuf =? 4)%nat then
      let '(more, err) := Decode_from rest (si + 1) [] in
      ((quantum_bytes dbuf ++ more)%list, err)
    else Decode_from rest (si + 1) dbuf.
Proof.
  cbn [Decode_from]. unfold sextet.
  by rewrite (proj1 (decodeMap_encode_char _ (sextet_range val k))).
Qed.

Ltac read_sextet :=
  rewrite Decode_from_sextet; cbv zeta; cbn [app length Nat.eqb].

(** Decoding what the encoder wrote gives the bytes back. *)
Lemma Decode_Encode (src : list byte) (si : Z) :
  Decode_from (base64_Encode src) si [] = (src, None).
Proof.
  revert src si. fix IH 1. intros [|b0 [|b1 [|b2 rest]]] si.
  - reflexivity.
  - cbn [base64_Encode]. cbv zeta. do 2 read_sextet.
    cbn -[quantum_bytes Z.add Z.shiftl Z.shiftr Z.land Z.lor].
    by rewrite decode_one.
  - cbn [base64_Encode]. cbv zeta. do 3 read_sextet.
    cbn -[quantum_bytes Z.add Z.shiftl Z.shiftr Z.land Z.lor].
    by rewrite decode_two.
  - cbn [base64_Encode]. cbv zeta. do 4 read_sextet.
    rewrite IH. by rewrite decode_three.
Qed.

Lemma skip_newlines_outside (src : string) (si : Z) :
  has_outside src = true ->
  exists c rest si', skip_newlines src si = (String c rest, si') /\
                     has_outside (String c rest) = true.
Proof.
  revert si. induction src as [|c src IH]; intros si H; [discriminate|].
  cbn [skip_newlines]. destruct (is_newline c) eqn:Hn.
  - apply IH. unfold has_outside in *. cbn [list_ascii_of_string existsb] in H.
    apply orb_prop in H as [H|H]; [|exact H].
    unfold outside in H. rewrite Hn in H. by destruct (decodeMap c).
  - by exists c, src, si.
Qed.

Lemma after_padding_outside (rest : string) (si : Z) (dbuf : list Z) :
  has_outside rest = true -> corrupt (after_padding rest si dbuf).
Proof.
  intros H. unfold after_padding.
  destruct (skip_newlines_outside rest si H) as (c & r & si' & -> & _). by exists si'.
Qed.

Lemma padding_outside (rest : string) (si : Z) (dbuf : list Z) :
  has_outside rest = true -> corrupt (padding rest si dbuf).
Proof.
  intros H. unfold padding.
  destruct (length dbuf) as [|[|[|n]]];
    [by eexists|by eexists| |by apply after_padding_outside].
  destruct (skip_newlines_outside rest si H) as (c & r & si' & -> & Hc).
  destruct (Ascii.eqb c StdPadding) eqn:Hp; [|by eexists]. cbn [negb].
  apply after_padding_outside.
  unfold has_outside in *. cbn [list_ascii_of_string existsb] in Hc.
  apply orb_prop in Hc as [Hc|Hc]; [|exact Hc].
  unfold outside in Hc. rewrite Hp in Hc.
  destruct (decodeMap c); [done|]. by rewrite andb_false_r in Hc.
Qed.

Lemma Decode_from_outside (src : string) (si : Z) (dbuf : list Z) :
  has_outside src = true -> corrupt (Decode_from src si dbuf).
Proof.
  revert si dbuf. induction src as [|c src IH]; intros si dbuf H; [discriminate|].
  unfold has_outside in H. cbn [list_ascii_of_string existsb] in H.
  cbn [Decode_from]. unfold outside in H at 1.
  destruct (decodeMap c) as [out|] eqn:Hd.
  - cbn [orb] in H. cbv zeta.
    destruct (length (dbuf ++ [out]) =? 4)%nat; [|by apply IH].
    specialize (IH (si + 1)%Z [] H). unfold corrupt in *.
    by destruct (Decode_from src (si + 1) []).
  - destruct (is_newline c) eqn:Hn; [by apply IH|].
    destruct (Ascii.eqb c StdPadding) eqn:Hp; [|by eexists].
    cbn in H. by apply padding_outside.
Qed.

Lemma base64_Encode_length (src : list byte) :
  String.length (base64_Encode src) = (4 * ((length src + 2) / 3))%nat.
Proof.
  revert src. fix IH 1. intros [|b0 [|b1 [|b2 rest]]]; [reflexivity..|].
  cbn [base64_Encode]. cbv zeta. cbn [String.length length]. rewrite IH.
  replace (S (S (S (length rest))) + 2)%nat with (1 * 3 + (length rest + 2))%nat by lia.
  rewrite Nat.div_add_l by done. lia.
Qed.

(** X15.  Decoding undoes encoding: [ParseOutput] applied to the base64
    text of any byte string returns the hex text of those bytes, and no
    error. *)
Theorem ParseOutput_of_encoded (b : list byte) :
  ParseOutput (base64_EncodeToString b) = Ok (hex_EncodeToString b).
Proof.
  unfold ParseOutput, base64_DecodeString, base64_EncodeToString.
  by rewrite Decode_Encode.
Qed.

(** X16.  Input holding a byte that is neither in the base64 alphabet nor
    padding nor a newline is rejected: [ParseOutput] returns the decoder's
    [CorruptInputError] and no text, wherever the byte stands. *)
Theorem ParseOutput_rejects_outside (data : string) :
  has_outside data = true ->
  exists off : Z, ParseOutput data = Err (CorruptInputError off).
Proof.
  intros H. unfold ParseOutput, base64_DecodeString.
  destruct (Decode_from_outside data 0 [] H) as [off Hoff].
  destruct (Decode_from data 0 []) as [b err]. simpl in Hoff. subst err. by exists off.
Qed.

Lemma ParseOutput_rejects_outside_witness :
  exists off : Z, ParseOutput "aGVsbG8h$A==" = Err (CorruptInputError off).
Proof. apply (ParseOutput_rejects_outside "aGVsbG8h$A=="). reflexivity. Defined.

(** X17.  The identity of an account name is the base64 text of its
    SHA-256 digest: [ParseOutput] reads it back as the hex text of the
    digest, and for a digest of 32 bytes it has 44 characters. *)
Theorem GetIdentityByName_decodes (R : Runtime) (name : string) :
  let digest := Hash_Sum R SHA256 (list_byte_of_string name) in
  ParseOutput (Data (GetIdentityByName R name)) = Ok (hex_EncodeToString digest) /\
  (length digest = 32%nat ->
   String.length (Data (GetIdentityByName R name)) = 44%nat).
Proof.
  intros digest. unfold GetIdentityByName. cbn [Data]. fold digest. split.
  - unfold ParseOutput, base64_DecodeString, base64_EncodeToString.
    by rewrite Decode_Encode.
  - intros H. unfold base64_EncodeToString. by rewrite base64_Encode_length, H.
Qed.

Lemma GetIdentityByName_decodes_witness :
  String.length (Data (GetIdentityByName demo_runtime "0123456789abcdef0123456789abcdef"))
  = 44%nat.
Proof.
  pose proof (GetIdentityByName_decodes demo_runtime "0123456789abcdef0123456789abcdef")
    as (_ & H).
  apply H. reflexivity.
Defined.

(* ===================================================================== *)
(** * Further properties: loading the key, building the client *)
(* ===================================================================== *)

Section Loading.

Context (H : Host).

(** The loader up to the PEM block. *)
Lemma NewPrivateKeyFromPemFile_block (pemFile keyPath : string) (b : list byte)
    (block : pem_Block) :
  filepath_Abs H pemFile = Ok keyPath ->
  ioutil_ReadFile H keyPath = Ok b ->
  pem_Decode H b = Some block ->
  NewPrivateKeyFromPemFile H pemFile
  = match parse_block H block with
    | Err err => Returns (Err err)
    | Ok pk => assert_rsa pk
    end.
Proof. intros H1 H2 H3. unfold NewPrivateKeyFromPemFile. by rewrite H1, H2, H3. Qed.

(** X18.  The loader returns a key only from a file that could be read
    and holds a PEM block of type RSA PRIVATE KEY, parsed as PKCS#1, or of
    type PRIVATE KEY, parsed as PKCS#8 with an RSA key inside; the key
    returned is the key parsed. *)
Theorem loaded_key_is_the_parsed_rsa_key (pemFile : string) (pk : PrivateKey) :
  NewPrivateKeyFromPemFile H pemFile = Returns (Ok pk) ->
  exists (keyPath : string) (b : list byte) (block : pem_Block),
    filepath_Abs H pemFile = Ok keyPath /\
    ioutil_ReadFile H keyPath = Ok b /\
    pem_Decode H b = Some block /\
    ((Type_ block = "RSA PRIVATE KEY" /\
      x509_ParsePKCS1PrivateKey H (Bytes block) = Ok (pk_key pk)) \/
     (Type_ block = "PRIVATE KEY" /\
      x509_ParsePKCS8PrivateKey H (Bytes block) = Ok (rsa_key (pk_key pk)))).
Proof.
  unfold NewPrivateKeyFromPemFile.
  destruct (filepath_Abs H pemFile) as [keyPath|e] eqn:H1; [|discriminate].
  destruct (ioutil_ReadFile H keyPath) as [b|e] eqn:H2; [|discriminate].
  destruct (pem_Decode H b) as [block|] eqn:H3; [|discriminate].
  intros Hret. exists keyPath, b, block. do 3 (split; [reflexivity || assumption|]).
  unfold parse_block, RSAPKCS1, RSAPKCS8 in Hret.
  destruct (String.eqb_spec (Type_ block) "RSA PRIVATE KEY") as [E1|N1].
  - left. split; [done|].
    destruct (x509_ParsePKCS1PrivateKey H (Bytes block)) as [k|e]; [|discriminate].
    simpl in Hret. by inversion Hret.
  - right. destruct (String.eqb_spec (Type_ block) "PRIVATE KEY") as [E2|N2];
      [|discriminate].
    split; [done|].
    destruct (x509_ParsePKCS8PrivateKey H (Bytes block)) as [[|k|t]|e];
      try discriminate.
    simpl in Hret. by inversion Hret.
Qed.

(** X19.  A PEM block the loader has no case for is not reported as an
    error: for a block of any type other than the two constants, and for a
    PKCS#8 block whose key is not an RSA key, the type assertion at the end
    panics; [NewClient] panics with it. *)
Theorem unsupported_key_panics (cfg : Config) (options : list ClientOption)
    (keyPath : string) (b : list byte) (block : pem_Block) :
  filepath_Abs H (AccessKey cfg) = Ok keyPath ->
  ioutil_ReadFile H keyPath = Ok b ->
  pem_Decode H b = Some block ->
  (Type_ block <> "RSA PRIVATE KEY" /\ Type_ block <> "PRIVATE KEY") \/
  (Type_ block = "PRIVATE KEY" /\
   exists t, x509_ParsePKCS8PrivateKey H (Bytes block) = Ok (other_key t)) ->
  exists msg : string,
    NewPrivateKeyFromPemFile H (AccessKey cfg) = Panics msg /\
    NewClient H cfg options = Panics msg.
Proof.
  intros H1 H2 H3 Hcase.
  assert (E : exists msg, NewPrivateKeyFromPemFile H (AccessKey cfg) = Panics msg).
  { rewrite (NewPrivateKeyFromPemFile_block _ _ _ _ H1 H2 H3).
    unfold parse_block, RSAPKCS1, RSAPKCS8.
    destruct Hcase as [[N1 N2] | [E2 [t Ht]]].
    - destruct (String.eqb_spec (Type_ block) "RSA PRIVATE KEY"); [done|].
      destruct (String.eqb_spec (Type_ block) "PRIVATE KEY"); [done|].
      by eexists.
    - rewrite E2. cbn [String.eqb Ascii.eqb Bool.eqb andb]. rewrite Ht. by eexists. }
  destruct E as [msg E]. exists msg. split; [exact E|].
  unfold NewClient. by rewrite E.
Qed.

(** X20.  The later revision's decoder of key bytes does what the loader
    does once the file is read; only the message for bytes without a PEM
    block differs. *)
Theorem block_decoder_agrees_with_loader (pemFile keyPath : string) (b : list byte) :
  filepath_Abs H pemFile = Ok keyPath ->
  ioutil_ReadFile H keyPath = Ok b ->
  (pem_Decode H b <> None ->
   Rev1.NewPrivateKeyFromPemBlock H b = NewPrivateKeyFromPemFile H pemFile) /\
  (pem_Decode H b = None ->
   NewPrivateKeyFromPemFile H pemFile
   = Returns (Err (errorString "no PEM data is found")) /\
   Rev1.NewPrivateKeyFromPemBlock H b
   = Returns (Err (errorString "invalid rsa private key for pem.Decode"))).
Proof.
  intros H1 H2. unfold NewPrivateKeyFromPemFile, Rev1.NewPrivateKeyFromPemBlock.
  rewrite H1, H2. split.
  - by destruct (pem_Decode H b).
  - by intros ->.
Qed.

Lemma last_cons_default {A : Type} (l : list A) (x d d' : A) :
  List.last (x :: l) d = List.last (x :: l) d'.
Proof.
  revert x. induction l as [|y l IH]; intros x; [reflexivity|].
  change (List.last (y :: l) d = List.last (y :: l) d'). apply IH.
Qed.

Lemma with_clients_fold (hs : list http_Client) (c : client) :
  fold_left (fun c f => f c) (map WithHTTPClient hs) c
  = {| cli := List.last hs (cli c); cfg := cfg c; key := key c |}.
Proof.
  revert c. induction hs as [|h hs IH]; intros c; [by destruct c|].
  cbn [map fold_left]. rewrite IH. unfold WithHTTPClient. cbn [cli cfg key].
  f_equal. destruct hs as [|h' hs']; [reflexivity|].
  change (List.last (h :: h' :: hs') (cli c)) with (List.last (h' :: hs') (cli c)).
  apply last_cons_default.
Qed.

(** X21.  [NewClient] loads the key file the configuration names.  When
    the loader returns an error, so does [NewClient], whatever the options.
    When it returns a key, the client built carries the configuration as
    given and that key; with [WithHTTPClient] options its transport is the
    last one named, and without options the transport of the constructor. *)
Theorem NewClient_builds (cfg0 : Config) (hs : list http_Client) :
  (forall (options : list ClientOption) (e : error),
     NewPrivateKeyFromPemFile H (AccessKey cfg0) = Returns (Err e) ->
     NewClient H cfg0 options = Returns (Err e)) /\
  (forall pk : PrivateKey,
     NewPrivateKeyFromPemFile H (AccessKey cfg0) = Returns (Ok pk) ->
     NewClient H cfg0 (map WithHTTPClient hs)
     = Returns (Ok {| cli := List.last hs (http_Client_literal H);
                     cfg := cfg0; key := pk |})).
Proof.
  split.
  - intros options e E. unfold NewClient. by rewrite E.
  - intros pk E. unfold NewClient. rewrite E. cbv zeta.
    by rewrite with_clients_fold.
Qed.

End Loading.

Lemma loaded_key_is_the_parsed_rsa_key_witness :
  exists (keyPath : string) (b : list byte) (block : pem_Block),
    filepath_Abs demo_host "pkcs8.pem" = Ok keyPath /\
    ioutil_ReadFile demo_host keyPath = Ok b /\
    pem_Decode demo_host b = Some block /\
    ((Type_ block = "RSA PRIVATE KEY" /\
      x509_ParsePKCS1PrivateKey demo_host (Bytes block) = Ok (pk_key demo_key)) \/
     (Type_ block = "PRIVATE KEY" /\
      x509_ParsePKCS8PrivateKey demo_host (Bytes block) = Ok (rsa_key (pk_key demo_key)))).
Proof.
  apply (loaded_key_is_the_parsed_rsa_key demo_host "pkcs8.pem" demo_key).
  vm_compute. reflexivity.
Defined.

Lemma unsupported_key_panics_witness :
  exists msg : string,
    NewPrivateKeyFromPemFile demo_host "ec.pem" = Panics msg /\
    NewClient demo_host
      {| BizID := "a00e36c5"; Endpoint := "https://rest.baas.alipay.com";
         TenantID := "tenant"; AccessID := "access"; AccessKey := "ec.pem";
         Account := "alice"; MyKmsKeyID := "kms" |} [] = Panics msg.
Proof.
  apply (unsupported_key_panics demo_host
           {| BizID := "a00e36c5"; Endpoint := "https://rest.baas.alipay.com";
              TenantID := "tenant"; AccessID := "access"; AccessKey := "ec.pem";
              Account := "alice"; MyKmsKeyID := "kms" |} []
           "/etc/antchain/ec.pem" (list_byte_of_string "/etc/antchain/ec.pem")
           {| Type_ := "EC PRIVATE KEY"; Bytes := [] |});
    [vm_compute; reflexivity..|].
  left. split; discriminate.
Defined.

Lemma block_decoder_agrees_with_loader_witness :
  Rev1.NewPrivateKeyFromPemBlock demo_host (list_byte_of_string "/etc/antchain/rsa.pem")
  = NewPrivateKeyFromPemFile demo_host "rsa.pem".
Proof.
  pose proof (block_decoder_agrees_with_loader demo_host "rsa.pem"
                "/etc/antchain/rsa.pem" (list_byte_of_string "/etc/antchain/rsa.pem")
                eq_refl eq_refl) as (Hsome & _).
  apply Hsome. vm_compute. discriminate.
Defined.

Lemma NewClient_builds_witness :
  NewClient demo_host
    {| BizID := "a00e36c5"; Endpoint := "https://rest.baas.alipay.com";
       TenantID := "tenant"; AccessID := "access"; AccessKey := "rsa.pem";
       Account := "alice"; MyKmsKeyID := "kms" |}
    (map WithHTTPClient [cli broken_client; cli (demo_client body_E1)])
  = Returns (Ok {| cli := List.last [cli broken_client; cli (demo_client body_E1)]
                            (http_Client_literal demo_host);
                  cfg := {| BizID := "a00e36c5"; Endpoint := "https://rest.baas.alipay.com";
                            TenantID := "tenant"; AccessID := "access";
                            AccessKey := "rsa.pem"; Account := "alice";
                            MyKmsKeyID := "kms" |};
                  key := demo_key |}).
Proof.
  pose proof (NewClient_builds demo_host
                {| BizID := "a00e36c5"; Endpoint := "https://rest.baas.alipay.com";
                   TenantID := "tenant"; AccessID := "access"; AccessKey := "rsa.pem";
                   Account := "alice"; MyKmsKeyID := "kms" |}
                [cli broken_client; cli (demo_client body_E1)]) as (_ & Hok).
  apply Hok. vm_compute. reflexivity.
Defined.
